(** * KnowledgeBase_Manager: batch lifecycle and retrieval pipeline

  A shallow embedding of the control logic of
  - [src/vector_search.py]         (text extraction, context assembly),
  - [src/batch_manager.py]         (batch creation, the polling loop),
  - [src/backend/rag_assistant.py] (RAGAssistant.search / answer),
  - [src/backend/api.py]           (the /api/query handler),
  followed by the properties proved about it.

  Conventions of the embedding.
  - A Python [str] is a [string] holding one [ascii] per character
    (code points 0..255, Latin-1); [len] and slicing count characters.
  - A raised exception is the [Raise] case of [result]; the provider
    (HTTP search, file lookup, chat completion, batch endpoints) is a
    record of oracles, and every call made to it is logged.
  - [print] and logger calls only write to the console; they do not
    influence any returned value and are left out. *)

From Stdlib Require Import ZArith Ascii String List Lia DecimalString.
From Stdlib Require Import Floats.SpecFloat.
From stdpp Require Import base option list strings gmap.

Local Open Scope Z_scope.

(* ===================================================================== *)
(** * Python values *)
(* ===================================================================== *)

Module Py.

(** ** Exceptions and results *)

Inductive exn :=
| TypeError (msg : string)
| ValueError (msg : string)
| KeyError (key : string)
| OverflowError (msg : string)
| UnboundLocalError (var : string)      (* a NameError subclass *)
| TimeoutError (msg : string)
| HTTPStatusError (status : Z) (body : string)
| UpstreamError (msg : string)          (* any other client/network failure *)
| HTTPException (status : Z) (detail : string).

Inductive result (A : Type) :=
| Ok (a : A)
| Raise (e : exn).
Arguments Ok {A} a.
Arguments Raise {A} e.

#[export] Instance result_ret : MRet result := fun _ a => Ok a.
#[export] Instance result_bind : MBind result := fun _ _ f m =>
  match m with
  | Ok a => f a
  | Raise e => Raise e
  end.

(** Code that also talks to the outside world threads a state [S]
    (the provider's replies, the clock, the log of calls made). *)
Definition M (S A : Type) : Type := S -> result A * S.

#[export] Instance M_ret (S : Type) : MRet (M S) := fun _ a s => (Ok a, s).
#[export] Instance M_bind (S : Type) : MBind (M S) := fun _ _ f m s =>
  match m s with
  | (Ok a, s') => f a s'
  | (Raise e, s') => (Raise e, s')
  end.

Definition raise {S A : Type} (e : exn) : M S A := fun s => (Raise e, s).
Definition lift {S A : Type} (r : result A) : M S A := fun s => (r, s).

(** [try: m  except: ...] seen from inside: how [m] ended. *)
Definition attempt {S A : Type} (m : M S A) : M S (result A) :=
  fun s => let '(r, s') := m s in (Ok r, s').

(** [try: m  except Exception as e: handler e] *)
Definition catch {S A : Type} (m : M S A) (handler : exn -> M S A) : M S A :=
  fun s =>
    match m s with
    | (Raise e, s') => handler e s'
    | (Ok a, s') => (Ok a, s')
    end.

(** [str(e)] for the exceptions above. *)
Definition exn_str (e : exn) : string :=
  match e with
  | TypeError m | ValueError m | OverflowError m | TimeoutError m
  | UpstreamError m => m
  | KeyError k => "'" +:+ k +:+ "'"
  | UnboundLocalError v =>
      "cannot access local variable '" +:+ v +:+
      "' where it is not associated with a value"
  | HTTPStatusError _ b => b
  | HTTPException _ d => d
  end.

(** ** Strings *)

Definition chr (n : nat) : string := String (ascii_of_nat n) EmptyString.
Definition LF : string := chr 10.

Definition len (s : string) : Z := Z.of_nat (String.length s).

Fixpoint str_take (n : nat) (s : string) : string :=
  match n, s with
  | S n', String c s' => String c (str_take n' s')
  | _, _ => EmptyString
  end.

(** [s[:n]]: a negative bound counts from the end and is clamped at 0. *)
Definition slice_to (s : string) (n : Z) : string :=
  if 0 <=? n then str_take (Z.to_nat n) s
  else str_take (Z.to_nat (len s + n)) s.

(** Truthiness of a [str]: [if s] / [if not s]. *)
Definition str_truthy (s : string) : bool :=
  match s with
  | EmptyString => false
  | String _ _ => true
  end.

(** Characters removed by [str.strip()] (Unicode whitespace below 256). *)
Definition is_space (c : ascii) : bool :=
  let n := nat_of_ascii c in
  ((9 <=? n) && (n <=? 13) || (28 <=? n) && (n <=? 31) ||
   (n =? 32) || (n =? 133) || (n =? 160))%nat.

Fixpoint lstrip (s : string) : string :=
  match s with
  | EmptyString => EmptyString
  | String c s' => if is_space c then lstrip s' else s
  end.

Fixpoint rstrip (s : string) : string :=
  match s with
  | EmptyString => EmptyString
  | String c s' =>
      match rstrip s' with
      | EmptyString => if is_space c then EmptyString else String c EmptyString
      | r => String c r
      end
  end.

Definition strip (s : string) : string := rstrip (lstrip s).

(** [sep.join(l)] for a list of strings. *)
Fixpoint join (sep : string) (l : list string) : string :=
  match l with
  | [] => EmptyString
  | x :: l' =>
      match l' with
      | [] => x
      | _ :: _ => x +:+ sep +:+ join sep l'
      end
  end.

(** [str(n)] for an [int]. *)
Definition str_of_Z (z : Z) : string := NilZero.string_of_int (Z.to_int z).
Definition str_of_nat (n : nat) : string := str_of_Z (Z.of_nat n).

(** ** Numbers and the [.2f] format *)

Inductive pynum :=
| PInt (z : Z)
| PFloat (f : spec_float).    (* binary64 *)

(** [float(z)]: round to nearest even on 53 bits. *)
Definition float_of_int (z : Z) : spec_float := binary_normalize 53 1024 z 0 false.

(** Nearest integer to [n / d] for [d > 0], ties to even. *)
Definition round_half_even (n d : Z) : Z :=
  let q := n / d in
  let r := n mod d in
  match 2 * r ?= d with
  | Lt => q
  | Gt => q + 1
  | Eq => if Z.even q then q else q + 1
  end.

(** [h] hundredths printed with two decimals. *)
Definition fixed2 (neg : bool) (h : Z) : string :=
  (if neg then "-" else "") +:+ str_of_Z (h / 100) +:+ "." +:+
  (if h mod 100 <? 10 then "0" else "") +:+ str_of_Z (h mod 100).

Definition format_2f_float (f : spec_float) : string :=
  match f with
  | S754_nan => "nan"
  | S754_infinity s => if s then "-inf" else "inf"
  | S754_zero s => fixed2 s 0
  | S754_finite s m e =>
      fixed2 s (if 0 <=? e then Z.pos m * 100 * 2 ^ e
                else round_half_even (Z.pos m * 100) (2 ^ (- e)))
  end.

(** [f"{x:.2f}"]: an [int] is converted to [float] first. *)
Definition format_2f (x : pynum) : result string :=
  match x with
  | PFloat f => Ok (format_2f_float f)
  | PInt z =>
      match float_of_int z with
      | S754_infinity _ => Raise (OverflowError "int too large to convert to float")
      | f => Ok (format_2f_float f)
      end
  end.

(** ** JSON values as Python objects *)

#[warnings="-register-all"] Inductive json :=
| JNull
| JBool (b : bool)
| JInt (z : Z)
| JFloat (f : spec_float)
| JStr (s : string)
| JList (l : list json)
| JDict (d : list (string * json)).   (* items in insertion order *)

Definition type_name (v : json) : string :=
  match v with
  | JNull => "NoneType"
  | JBool _ => "bool"
  | JInt _ => "int"
  | JFloat _ => "float"
  | JStr _ => "str"
  | JList _ => "list"
  | JDict _ => "dict"
  end.

Definition truthy (v : json) : bool :=
  match v with
  | JNull => false
  | JBool b => b
  | JInt z => negb (z =? 0)
  | JFloat (S754_zero _) => false
  | JFloat _ => true
  | JStr s => str_truthy s
  | JList [] => false
  | JList (_ :: _) => true
  | JDict [] => false
  | JDict (_ :: _) => true
  end.

Fixpoint dict_lookup {V : Type} (k : string) (d : list (string * V)) : option V :=
  match d with
  | [] => None
  | (k', v) :: d' => if String.eqb k k' then Some v else dict_lookup k d'
  end.

(** [k in d] *)
Definition dict_contains {V : Type} (k : string) (d : list (string * V)) : bool :=
  match dict_lookup k d with
  | Some _ => true
  | None => false
  end.

(** [d.get(k)] *)
Definition dict_get (k : string) (d : list (string * json)) : json :=
  default JNull (dict_lookup k d).

(** [d[k]] *)
Definition dict_item (k : string) (d : list (string * json)) : result json :=
  match dict_lookup k d with
  | Some v => Ok v
  | None => Raise (KeyError k)
  end.

(** [v == s] for a [str] constant [s]. *)
Definition eq_str (v : json) (s : string) : bool :=
  match v with
  | JStr s' => String.eqb s' s
  | _ => false
  end.

Fixpoint chars (s : string) : list json :=
  match s with
  | EmptyString => []
  | String c s' => JStr (String c EmptyString) :: chars s'
  end.

(** The items visited by [for p in v]. *)
Definition iterate (v : json) : result (list json) :=
  match v with
  | JList l => Ok l
  | JDict d => Ok (map (fun kv => JStr (fst kv)) d)
  | JStr s => Ok (chars s)
  | _ => Raise (TypeError ("'" +:+ type_name v +:+ "' object is not iterable"))
  end.

(** The strings of [texts], or the [TypeError] that [str.join] raises
    at the first item that is not a [str]. *)
Fixpoint str_items (i : nat) (texts : list json) : result (list string) :=
  match texts with
  | [] => Ok []
  | JStr s :: rest => r ← str_items (S i) rest; Ok (s :: r)
  | v :: _ =>
      Raise (TypeError ("sequence item " +:+ str_of_nat i +:+
                        ": expected str instance, " +:+ type_name v +:+ " found"))
  end.

(** [sep.join(texts)] *)
Definition join_items (sep : string) (texts : list json) : result string :=
  l ← str_items 0 texts; Ok (join sep l).

End Py.

Import Py.

(* ===================================================================== *)
(** * The external provider and the clock *)
(* ===================================================================== *)

Module World.

(** One element of ["data"] in a search response.  A field that is
    [None] is a key the response does not have.  [file_id], [filename]
    and [score] have the types the provider documents; the content is
    an arbitrary JSON value, its shape being what the code inspects. *)
Record hit := Hit {
  hit_file_id : option string;
  hit_filename : option string;
  hit_score : option pynum;
  hit_content : option json;
}.

Record search_results := SearchResults { data : option (list hit) }.

Record message := Message { role : string; content : string }.

Inductive chat_option :=
| Temperature (t : spec_float)
| ReasoningEffort (level : string).

Record file_counts := FileCounts {
  completed : Z;
  in_progress : Z;
  failed : Z;
  cancelled : Z;
  total : Z;
}.

(** A [VectorStoreFileBatch] as the code reads it. *)
Record batch := Batch {
  id : string;
  status : string;
  counts : option file_counts;
}.

Inductive call :=
| VectorStoreSearch (vector_store_id query : string) (max_num_results : Z)
| FilesRetrieve (file_id : string)
| ChatCompletionsCreate (model : string) (messages : list message) (opt : chat_option)
| FileBatchesCreate (vector_store_id : string) (file_ids : list string)
                    (chunking_strategy : option json)
| FileBatchesRetrieve (vector_store_id batch_id : string)
| Sleep (seconds : Z).

(** What the [k]-th status read answers, and how long it takes (ms). *)
Record poll_outcome := Poll { latency : Z; outcome : result batch }.

Record world := {
  clock : Z;                       (* [time.time()], in milliseconds *)
  polls : nat;                     (* status reads made so far *)
  calls : list call;               (* log, oldest first *)
  search_reply : string -> string -> Z -> result search_results;
  files_reply : string -> result string;
  chat_reply : string -> list message -> chat_option -> result string;
  create_reply : string -> list string -> option json -> result batch;
  poll_script : nat -> poll_outcome;
}.

Definition record (c : call) (dt : Z) (dp : nat) (w : world) : world :=
  {| clock := clock w + dt;
     polls := (polls w + dp)%nat;
     calls := calls w ++ [c];
     search_reply := search_reply w;
     files_reply := files_reply w;
     chat_reply := chat_reply w;
     create_reply := create_reply w;
     poll_script := poll_script w |}.

(** POST [/v1/vector_stores/{id}/search], [raise_for_status()], [.json()] *)
Definition vector_store_search (vs_id query : string) (n : Z) : M world search_results :=
  fun w => (search_reply w vs_id query n, record (VectorStoreSearch vs_id query n) 0 0 w).

(** [client.files.retrieve(file_id).filename] *)
Definition files_retrieve (file_id : string) : M world string :=
  fun w => (files_reply w file_id, record (FilesRetrieve file_id) 0 0 w).

(** [client.chat.completions.create(...).choices[0].message.content] *)
Definition chat_completions_create (model : string) (msgs : list message)
    (opt : chat_option) : M world string :=
  fun w => (chat_reply w model msgs opt, record (ChatCompletionsCreate model msgs opt) 0 0 w).

(** [client.vector_stores.file_batches.create(...)] *)
Definition file_batches_create (vs_id : string) (file_ids : list string)
    (cs : option json) : M world batch :=
  fun w => (create_reply w vs_id file_ids cs, record (FileBatchesCreate vs_id file_ids cs) 0 0 w).

(** [client.vector_stores.file_batches.retrieve(...)] *)
Definition file_batches_retrieve (vs_id batch_id : string) : M world batch :=
  fun w =>
    let o := poll_script w (polls w) in
    (outcome o, record (FileBatchesRetrieve vs_id batch_id) (latency o) 1 w).

(** [time.time()] *)
Definition time_time : M world Z := fun w => (Ok (clock w), w).

(** [time.sleep(seconds)] *)
Definition time_sleep (seconds : Z) : M world unit :=
  fun w =>
    if seconds <? 0 then (Raise (ValueError "sleep length must be non-negative"), w)
    else (Ok tt, record (Sleep seconds) (1000 * seconds) 0 w).

Definition is_chat_call (c : call) : bool :=
  match c with
  | ChatCompletionsCreate _ _ _ => true
  | _ => false
  end.

Definition is_batch_create (c : call) : bool :=
  match c with
  | FileBatchesCreate _ _ _ => true
  | _ => false
  end.

End World.

Import World.

(* ===================================================================== *)
(** * src/vector_search.py *)
(* ===================================================================== *)

Module VectorSearch.

Definition MAX_CONTEXT_CHARS : Z := 8000.
Definition DEFAULT_SEARCH_RESULTS : Z := 5.

(** [search_results.get("data", [])] *)
Definition get_data (r : search_results) : list hit := default [] (data r).

(** [search_vector_store] with [score_threshold=None], as every caller
    in the repository uses it. *)
Definition search_vector_store (vector_store_id query : string) (max_results : Z)
  : M world search_results :=
  vector_store_search vector_store_id query max_results.

(** Body of the [for part in parts] loop of [extract_text_from_hit]. *)
Definition collect_part (texts : list json) (part : json) : result (list json) :=
  match part with
  | JDict d =>
      if dict_contains "text" d then
        t ← dict_item "text" d; Ok (texts ++ [t])
      else if eq_str (dict_get "type" d) "text" && dict_contains "text" d then
        t ← dict_item "text" d; Ok (texts ++ [t])
      else Ok texts
  | _ => Ok texts
  end.

Fixpoint collect_parts (texts : list json) (parts : list json) : result (list json) :=
  match parts with
  | [] => Ok texts
  | part :: rest => texts' ← collect_part texts part; collect_parts texts' rest
  end.

Definition extract_text_from_hit (h : hit) : result string :=
  parts ← iterate (default (JList []) (hit_content h));
  texts ← collect_parts [] parts;
  s ← join_items LF texts;
  Ok (strip s).

Definition truncation_marker : string :=
  LF +:+ LF +:+ "[... truncado por l" +:+ chr 237 +:+ "mite de tokens ...]".

Definition default_separator : string := LF +:+ LF +:+ "---" +:+ LF +:+ LF.

(** The block appended for hit number [i] with text [text]. *)
Definition snippet (include_source : bool) (i : nat) (h : hit) (text : string)
  : result string :=
  if include_source then
    let filename := default "unknown" (hit_filename h) in
    let score := default (PInt 0) (hit_score h) in
    sc ← format_2f score;
    let header :=
      "[KB#" +:+ str_of_nat i +:+ " - " +:+ filename +:+ " (score: " +:+ sc +:+ ")]" in
    Ok (header +:+ LF +:+ text)
  else Ok ("[KB#" +:+ str_of_nat i +:+ "]" +:+ LF +:+ text).

(** [for i, hit in enumerate(hits, start=i): ...] with the list
    [snippets] built so far. *)
Fixpoint collect_snippets (include_source : bool) (i : nat) (hits : list hit)
    (snippets : list string) : result (list string) :=
  match hits with
  | [] => Ok snippets
  | h :: rest =>
      text ← extract_text_from_hit h;
      if str_truthy text then
        s ← snippet include_source i h text;
        collect_snippets include_source (S i) rest (snippets ++ [s])
      else collect_snippets include_source (S i) rest snippets
  end.

Definition extract_context (search_results : search_results) (max_chars : Z)
    (include_source : bool) (separator : string) : result string :=
  snippets ← collect_snippets include_source 1 (get_data search_results) [];
  let context := join separator snippets in
  if len context >? max_chars then
    Ok (slice_to context max_chars +:+ truncation_marker)
  else Ok context.

Definition search_and_extract (vector_store_id query : string)
    (max_results max_chars : Z) : M world (string * search_results) :=
  hits ← search_vector_store vector_store_id query max_results;
  context ← lift (extract_context hits max_chars true default_separator);
  mret (context, hits).

End VectorSearch.

(* ===================================================================== *)
(** * src/batch_manager.py *)
(* ===================================================================== *)

Module BatchManager.

Definition create_file_batch (vector_store_id : string) (file_ids : list string)
    (chunking_strategy : option json) : M world string :=
  let passed :=
    match chunking_strategy with
    | Some cs => if truthy cs then Some cs else None
    | None => None
    end in
  b ← file_batches_create vector_store_id file_ids passed;
  mret (id b).

Definition get_batch_status (vector_store_id batch_id : string) : M world batch :=
  file_batches_retrieve vector_store_id batch_id.

(** [int(time.time() - start_time)] *)
Definition elapsed_seconds (now start_time : Z) : Z := Z.quot (now - start_time) 1000.

Definition timeout_message (timeout_seconds : Z) (last_status : string) : string :=
  "Batch no complet" +:+ chr 243 +:+ " en " +:+ str_of_Z timeout_seconds +:+ "s. " +:+
  chr 218 +:+ "ltimo estado: " +:+ last_status.

(** How one pass through the body of [while True] ends. *)
Inductive pass :=
| Return (final : string)
| Again (b : batch).

(** One pass; [last] is the local variable [batch], unbound ([None])
    until the first status read. *)
Definition wait_pass (vector_store_id batch_id : string)
    (timeout_seconds poll_interval start_time : Z) (last : option batch)
  : M world pass :=
  now ← time_time;
  let elapsed := elapsed_seconds now start_time in
  if timeout_seconds <=? elapsed then
    match last with
    | None => raise (UnboundLocalError "batch")
    | Some b => raise (TimeoutError (timeout_message timeout_seconds (status b)))
    end
  else
    b ← get_batch_status vector_store_id batch_id;
    if String.eqb (status b) "completed" then mret (Return "completed")
    else if String.eqb (status b) "failed" then mret (Return "failed")
    else if String.eqb (status b) "cancelled" then mret (Return "cancelled")
    else _ ← time_sleep poll_interval; mret (Again b).

(** [while True]: [None] when [fuel] passes did not leave the loop. *)
Fixpoint wait_loop (fuel : nat) (vector_store_id batch_id : string)
    (timeout_seconds poll_interval start_time : Z) (last : option batch)
    (w : world) : option (result string * world) :=
  match fuel with
  | O => None
  | S fuel' =>
      match wait_pass vector_store_id batch_id timeout_seconds poll_interval
                      start_time last w with
      | (Raise e, w') => Some (Raise e, w')
      | (Ok (Return final), w') => Some (Ok final, w')
      | (Ok (Again b), w') =>
          wait_loop fuel' vector_store_id batch_id timeout_seconds poll_interval
                    start_time (Some b) w'
      end
  end.

Definition wait_for_batch (fuel : nat) (vector_store_id batch_id : string)
    (timeout_seconds poll_interval : Z) (w : world)
  : option (result string * world) :=
  match time_time w with
  | (Ok start_time, w') =>
      wait_loop fuel vector_store_id batch_id timeout_seconds poll_interval
                start_time None w'
  | (Raise e, w') => Some (Raise e, w')
  end.

Definition create_and_wait_batch (fuel : nat) (vector_store_id : string)
    (file_ids : list string) (timeout_seconds : Z) (w : world)
  : option (result string * world) :=
  match create_file_batch vector_store_id file_ids None w with
  | (Ok batch_id, w') => wait_for_batch fuel vector_store_id batch_id timeout_seconds 5 w'
  | (Raise e, w') => Some (Raise e, w')
  end.

End BatchManager.

(* ===================================================================== *)
(** * src/backend/rag_assistant.py *)
(* ===================================================================== *)

Module RagAssistant.

Record RAGAssistant := {
  vector_store_id : string;
  model : string;
  system_prompt : string;
  max_results : Z;
  max_context_chars : Z;
}.

Record RAGResponse := {
  answer_text : string;           (* field [answer] *)
  context : string;
  sources : list string;
  query : string;
  response_model : string;        (* field [model] *)
  search_results : World.search_results;
}.

Definition search (self : RAGAssistant) (query : string)
  : M world (string * World.search_results) :=
  results ← VectorSearch.search_vector_store (vector_store_id self) query (max_results self);
  context ← lift (VectorSearch.extract_context results (max_context_chars self) true
                    VectorSearch.default_separator);
  mret (context, results).

(** [hit.get("filename", "unknown")] *)
Definition source_of (h : hit) : string := default "unknown" (hit_filename h).

Definition answer_messages (self : RAGAssistant) (context query : string)
    (additional_context : option string) : list message :=
  [Message "system" (system_prompt self)]
  ++ (if str_truthy context
      then [Message "system" ("KNOWLEDGE BASE CONTEXT:" +:+ LF +:+ context)]
      else [])
  ++ (match additional_context with
      | Some extra =>
          if str_truthy extra
          then [Message "system" ("ADDITIONAL CONTEXT:" +:+ LF +:+ extra)]
          else []
      | None => []
      end)
  ++ [Message "user" query].

Definition answer (self : RAGAssistant) (query : string)
    (additional_context : option string) (temperature : spec_float)
  : M world RAGResponse :=
  '(context, results) ← search self query;
  let sources := map source_of (VectorSearch.get_data results) in
  let messages := answer_messages self context query additional_context in
  reply ← chat_completions_create (model self) messages (Temperature temperature);
  mret {| answer_text := reply;
          context := context;
          sources := sources;
          query := query;
          response_model := model self;
          search_results := results |}.

End RagAssistant.

(* ===================================================================== *)
(** * src/backend/api.py: POST /api/query *)
(* ===================================================================== *)

Module Api.

Record AppState := {
  has_client : bool;                    (* [state.client] is not [None] *)
  api_key : option string;
  state_vector_store_id : option string;
}.

Record QueryRequest := {
  req_query : string;
  req_vector_store_id : option string;
  req_model : string;
}.

Record QueryResponse := {
  success : bool;
  answer : string;
  sources : list string;
  context : string;
}.

Definition a_acute := chr 225.
Definition e_acute := chr 233.
Definition i_acute := chr 237.
Definition o_acute := chr 243.
Definition u_acute := chr 250.
Definition U_ACUTE := chr 218.

Definition no_context_answer : string :=
  "No encontr" +:+ e_acute +:+ " informaci" +:+ o_acute +:+
  "n relevante en los documentos para responder a tu pregunta.".

Definition query_system_prompt : string :=
  "Eres un asistente " +:+ u_acute +:+
  "til que responde preguntas bas" +:+ a_acute +:+ "ndote " +:+ U_ACUTE +:+
  "NICAMENTE en el contexto proporcionado de la base de conocimiento." +:+ LF +:+ LF +:+
  "REGLAS:" +:+ LF +:+
  "- Usa SOLO la informaci" +:+ o_acute +:+
  "n del contexto KB que se te proporciona" +:+ LF +:+
  "- Si la informaci" +:+ o_acute +:+
  "n no est" +:+ a_acute +:+
  " en el contexto, di claramente que no tienes esa informaci" +:+ o_acute +:+ "n" +:+ LF +:+
  "- S" +:+ e_acute +:+ " preciso, conciso y amable" +:+ LF +:+
  "- Responde en el mismo idioma que la pregunta".

(** [a or b] on two optional strings. *)
Definition or_else (a b : option string) : option string :=
  match a with
  | Some s => if str_truthy s then a else b
  | None => b
  end.

(** Body of the [for p in parts] loop of the handler's own
    [extract_text_from_hit]. *)
Definition collect_part (texts : list string) (p : json) : list string :=
  match p with
  | JDict d =>
      let case_c :=
        if eq_str (dict_get "type" d) "text" then
          match dict_get "value" d with
          | JStr v => texts ++ [v]
          | _ => texts
          end
        else texts in
      match dict_get "text" d with
      | JStr t => texts ++ [t]                  (* case A *)
      | JDict inner =>
          match dict_get "value" inner with
          | JStr v => texts ++ [v]              (* case B *)
          | _ => case_c                         (* case C *)
          end
      | _ => case_c
      end
  | _ => texts
  end.

Definition keeps (t : string) : bool := str_truthy t && str_truthy (strip t).

Definition extract_text_from_hit (h : hit) : result string :=
  let content := default (JList []) (hit_content h) in
  parts ← iterate (if truthy content then content else JList []);
  let texts := fold_left collect_part parts [] in
  Ok (strip (join LF (map strip (List.filter keeps texts)))).

(** The three lists the loop over the hits maintains. *)
Record gathered := {
  chunks : list string;
  found : list string;                    (* [sources] *)
  file_id_to_name : gmap string string;
}.

(** Body of [for i, hit in enumerate(...)]. *)
Definition visit_hit (i : nat) (h : hit) (g : gathered) : M world gathered :=
  let file_id := hit_file_id h in
  txt ← lift (extract_text_from_hit h);
  if str_truthy txt then
    let chunks' := chunks g ++ ["[Chunk #" +:+ str_of_nat i +:+ "]" +:+ LF +:+ txt] in
    let unchanged := {| chunks := chunks';
                        found := found g;
                        file_id_to_name := file_id_to_name g |} in
    match file_id with
    | Some fid =>
        if str_truthy fid && bool_decide (file_id_to_name g !! fid = None) then
          info ← attempt (files_retrieve fid);
          match info with
          | Ok filename =>
              mret {| chunks := chunks';
                      found := if bool_decide (filename ∈ found g) then found g
                               else found g ++ [filename];
                      file_id_to_name := <[fid := filename]> (file_id_to_name g) |}
          | Raise _ => mret unchanged            (* except: pass *)
          end
        else mret unchanged
    | None => mret unchanged
    end
  else mret g.

Fixpoint visit_hits (i : nat) (hits : list hit) (g : gathered) : M world gathered :=
  match hits with
  | [] => mret g
  | h :: rest => g' ← visit_hit i h g; visit_hits (S i) rest g'
  end.

(** Steps 1 to 3 of the handler: search, then context and sources. *)
Definition retrieve (vs_id query : string) : M world (string * list string) :=
  search_data ← vector_store_search vs_id query 20;
  g ← visit_hits 1 (take 10 (VectorSearch.get_data search_data))
        {| chunks := []; found := []; file_id_to_name := ∅ |};
  let context := join VectorSearch.default_separator (chunks g) in
  mret (slice_to context 8000, found g).

Definition query_messages (context query : string) : list message :=
  [Message "system" query_system_prompt;
   Message "system" ("CONTEXTO DE LA BASE DE CONOCIMIENTO:" +:+ LF +:+ LF +:+ context);
   Message "user" query].

(** The [try] block. *)
Definition query_body (vs_id : string) (request : QueryRequest) : M world QueryResponse :=
  '(context, sources) ← retrieve vs_id (req_query request);
  if negb (str_truthy context) then
    mret {| success := true;
            answer := no_context_answer;
            sources := [];
            context := "" |}
  else
    reply ← chat_completions_create (req_model request)
              (query_messages context (req_query request)) (ReasoningEffort "high");
    mret {| success := true;
            answer := reply;
            sources := sources;
            context := if len context >? 500 then slice_to context 500 +:+ "..."
                       else context |}.

(** The [except] clauses. *)
Definition to_http_error (e : exn) : exn :=
  match e with
  | HTTPException _ _ => e
  | HTTPStatusError code _ =>
      HTTPException 500 ("Error en b" +:+ u_acute +:+ "squeda: " +:+ str_of_Z code)
  | _ => HTTPException 500 ("Error al procesar consulta: " +:+ exn_str e)
  end.

Definition query_rag (state : AppState) (request : QueryRequest) : M world QueryResponse :=
  if negb (has_client state) then raise (HTTPException 400 "API key no configurada")
  else
    match or_else (req_vector_store_id request) (state_vector_store_id state) with
    | Some vs_id =>
        if str_truthy vs_id then
          catch (query_body vs_id request) (fun e => raise (to_http_error e))
        else raise (HTTPException 400 "No hay Vector Store configurado. Crea uno primero.")
    | None => raise (HTTPException 400 "No hay Vector Store configurado. Crea uno primero.")
    end.

End Api.

(* ===================================================================== *)
(** * Reference readings used in the statements *)
(* ===================================================================== *)

Module Reading.
Import VectorSearch.

(** [enumerate(hits, start=i)] *)
Definition enumerate_from {A : Type} (i : nat) (l : list A) : list (nat * A) :=
  imap (fun k a => ((i + k)%nat, a)) l.

(** The text of a hit that has some. *)
Definition text_of (h : hit) : option string :=
  match extract_text_from_hit h with
  | Ok t => if str_truthy t then Some t else None
  | Raise _ => None
  end.

Definition keep_numbered (ph : nat * hit) : option (nat * hit * string) :=
  t ← text_of ph.2; Some (ph.1, ph.2, t).

Definition keep (h : hit) : option (hit * string) :=
  t ← text_of h; Some (h, t).

(** Blocks labelled with the position the hit has in the hit list. *)
Definition position_blocks (include_source : bool) (hits : list hit)
  : result (list string) :=
  mapM (fun b : nat * hit * string => snippet include_source b.1.1 b.1.2 b.2)
       (omap keep_numbered (enumerate_from 1 hits)).

(** Blocks labelled 1, 2, 3, ... over the hits that have text: the
    numbering the specification describes. *)
Definition consecutive_blocks (include_source : bool) (hits : list hit)
  : result (list string) :=
  mapM (fun b : nat * (hit * string) => snippet include_source b.1 b.2.1 b.2.2)
       (enumerate_from 1 (omap keep hits)).

(** The last step of [extract_context], on the joined string. *)
Definition truncate (max_chars : Z) (context : string) : string :=
  if len context >? max_chars then slice_to context max_chars +:+ truncation_marker
  else context.

Definition spec_extract_context (sr : search_results) (max_chars : Z)
    (include_source : bool) (separator : string) : result string :=
  blocks ← consecutive_blocks include_source (get_data sr);
  Ok (truncate max_chars (join separator blocks)).

(** The ["text"] entry of a dictionary part, whatever its type. *)
Definition text_entry (part : json) : option json :=
  match part with
  | JDict d => dict_lookup "text" d
  | _ => None
  end.

(** A content part that is not a dictionary, or has no ["text"] entry,
    or has a string there. *)
Definition plain_part (part : json) : Prop :=
  forall v, text_entry part = Some v -> exists s, v = JStr s.

(** A hit as the provider documents it: the content is absent or a list
    of plain parts, the score is absent or a float. *)
Definition plain_hit (h : hit) : Prop :=
  (hit_content h = None
   \/ exists parts, hit_content h = Some (JList parts) /\ Forall plain_part parts)
  /\ (hit_score h = None \/ exists f, hit_score h = Some (PFloat f)).

(** A content part whose ["text"] entry is not a string. *)
Definition non_string_text (part : json) : Prop :=
  exists d v, part = JDict d /\ dict_lookup "text" d = Some v /\ forall s, v <> JStr s.

(** The three shapes of a content part, tried in this order. *)
Definition shape_direct (p : json) : option string :=
  match p with
  | JDict d => match dict_get "text" d with JStr t => Some t | _ => None end
  | _ => None
  end.

Definition shape_nested (p : json) : option string :=
  match p with
  | JDict d =>
      match dict_get "text" d with
      | JDict inner => match dict_get "value" inner with JStr v => Some v | _ => None end
      | _ => None
      end
  | _ => None
  end.

Definition shape_typed (p : json) : option string :=
  match p with
  | JDict d =>
      if eq_str (dict_get "type" d) "text"
      then match dict_get "value" d with JStr v => Some v | _ => None end
      else None
  | _ => None
  end.

Fixpoint first_match (shapes : list (json -> option string)) (p : json) : option string :=
  match shapes with
  | [] => None
  | shape :: others =>
      match shape p with
      | Some t => Some t
      | None => first_match others p
      end
  end.

Definition part_text : json -> option string :=
  first_match [shape_direct; shape_nested; shape_typed].

(** Text of a hit as the specification words it: the recognised parts,
    newline-separated, trimmed. *)
Definition spec_hit_text (parts : list json) : string :=
  strip (join LF (omap part_text parts)).

(** ** Batch lifecycle *)

Definition terminal (status : string) : Prop :=
  status = "completed" \/ status = "failed" \/ status = "cancelled".

(** Every status read still to come succeeds, takes no negative time
    and reports a status that is not terminal. *)
Definition never_terminal (w : world) : Prop :=
  forall k, (polls w <= k)%nat ->
    exists b, outcome (poll_script w k) = Ok b
              /\ ~ terminal (status b)
              /\ 0 <= latency (poll_script w k).

(** The error raised on timeout determines the counts last read. *)
Definition timeout_error_carries_counts (fuel : nat) (vs_id batch_id : string)
    (timeout_seconds poll_interval : Z) (world_of : option file_counts -> world) : Prop :=
  exists counts_of : exn -> option file_counts,
    forall c e w',
      BatchManager.wait_for_batch fuel vs_id batch_id timeout_seconds poll_interval
        (world_of c) = Some (Raise e, w') ->
      counts_of e = c.

(** ** Answering *)

(** Between [w] and [w'] the file lookup answers the same and no chat
    completion was requested. *)
Definition quiet_step (w w' : world) : Prop :=
  files_reply w' = files_reply w
  /\ exists extra, calls w' = calls w ++ extra
                   /\ Forall (fun c => is_chat_call c = false) extra.

(** [srcs] has no duplicate, is no longer than [seen], and each entry is
    the name the file lookup [lookup] gives for the file id of a hit in
    [seen]. *)
Definition sources_from (lookup : string -> result string) (seen : list hit)
    (srcs : list string) : Prop :=
  NoDup srcs
  /\ (length srcs <= length seen)%nat
  /\ forall s, s ∈ srcs ->
       exists h fid, h ∈ seen /\ hit_file_id h = Some fid /\ lookup fid = Ok s.





(** The short circuit on an empty context, as the specification words it
    for [RAGAssistant.answer]. *)
Definition answer_short_circuits (self : RagAssistant.RAGAssistant) (query : string)
    (additional_context : option string) (temperature : spec_float) (w : world) : Prop :=
  forall results w1,
    RagAssistant.search self query w = (Ok (EmptyString, results), w1) ->
    exists response w2,
      RagAssistant.answer self query additional_context temperature w = (Ok response, w2)
      /\ RagAssistant.sources response = []
      /\ RagAssistant.context response = EmptyString
      /\ Forall (fun c => is_chat_call c = false) (calls w2).

End Reading.

(* ===================================================================== *)
(** * src/vector_search.py: the score threshold of [search_vector_store] *)
(* ===================================================================== *)

Module ScoreFilter.
Import VectorSearch.

(** The exact value of a number: [n * 2 ^ e], an infinity, or NaN. *)
Inductive exact :=
| ENan
| EInf (negative : bool)
| EFin (n e : Z).

Definition exact_of_float (f : spec_float) : exact :=
  match f with
  | S754_nan => ENan
  | S754_infinity s => EInf s
  | S754_zero _ => EFin 0 0
  | S754_finite s m e => EFin (if s then Z.neg m else Z.pos m) e
  end.

Definition exact_of_num (x : pynum) : exact :=
  match x with
  | PInt z => EFin z 0
  | PFloat f => exact_of_float f
  end.

(** Comparison of two numbers by value; [None] when one is NaN. *)
Definition exact_compare (a b : exact) : option comparison :=
  match a, b with
  | ENan, _ | _, ENan => None
  | EInf s1, EInf s2 =>
      Some (if s1 then (if s2 then Eq else Lt) else (if s2 then Gt else Eq))
  | EInf s, EFin _ _ => Some (if s then Lt else Gt)
  | EFin _ _, EInf s => Some (if s then Gt else Lt)
  | EFin n1 e1, EFin n2 e2 =>
      let base := Z.min e1 e2 in
      Some (n1 * 2 ^ (e1 - base) ?= n2 * 2 ^ (e2 - base))
  end.

(** [x >= t] *)
Definition num_ge (x : pynum) (t : spec_float) : bool :=
  match exact_compare (exact_of_num x) (exact_of_float t) with
  | Some Gt | Some Eq => true
  | _ => false
  end.

(** Truthiness of a [float]. *)
Definition float_truthy (f : spec_float) : bool :=
  match f with
  | S754_zero _ => false
  | _ => true
  end.

(** [h.get("score", 0) >= score_threshold] *)
Definition passes (score_threshold : spec_float) (h : hit) : bool :=
  num_ge (default (PInt 0) (hit_score h)) score_threshold.

(** [search_vector_store] with its optional [score_threshold]. *)
Definition search_vector_store (vector_store_id query : string) (max_results : Z)
    (score_threshold : option spec_float) : M world search_results :=
  results ← vector_store_search vector_store_id query max_results;
  match score_threshold, data results with
  | Some t, Some hits =>
      if float_truthy t
      then mret (SearchResults (Some (List.filter (passes t) hits)))
      else mret results
  | _, _ => mret results
  end.

End ScoreFilter.

(* ===================================================================== *)
(** * src/backend/rag_assistant.py: history, quick answers, the test suite *)
(* ===================================================================== *)

Module RagSuite.
Import RagAssistant.

Definition DEFAULT_MODEL : string := "gpt-4.1".

Definition DEFAULT_SYSTEM_PROMPT : string :=
  "You are a helpful customer service assistant." +:+ LF +:+
  "Answer questions using ONLY the provided knowledge base context." +:+ LF +:+
  "If the information is not in the context, say " +:+ chr 34 +:+
  "I don't have that information in my knowledge base." +:+ chr 34 +:+ LF +:+
  "Be concise, accurate, and friendly.".

(** The default [temperature=0.7], as a binary64 number. *)
Definition default_temperature : spec_float :=
  S754_finite false 6305039478318694 (-53).

(** [RAGAssistant(vector_store_id, model=model)] *)
Definition new_assistant (vector_store_id model : string) : RAGAssistant :=
  {| vector_store_id := vector_store_id;
     model := model;
     system_prompt := DEFAULT_SYSTEM_PROMPT;
     max_results := VectorSearch.DEFAULT_SEARCH_RESULTS;
     max_context_chars := VectorSearch.MAX_CONTEXT_CHARS |}.

Definition history_messages (self : RAGAssistant) (context query : string)
    (conversation_history : list message) : list message :=
  [Message "system" (system_prompt self);
   Message "system" ("KNOWLEDGE BASE CONTEXT:" +:+ LF +:+ context)]
  ++ conversation_history
  ++ [Message "user" query].

Definition answer_with_history (self : RAGAssistant) (query : string)
    (conversation_history : list message) (temperature : spec_float)
  : M world RAGResponse :=
  '(context, results) ← search self query;
  let sources := map (fun h => default EmptyString (hit_filename h))
                     (VectorSearch.get_data results) in
  let messages := history_messages self context query conversation_history in
  reply ← chat_completions_create (model self) messages (Temperature temperature);
  mret {| answer_text := reply;
          context := context;
          sources := sources;
          query := query;
          response_model := model self;
          search_results := results |}.

Definition quick_answer (vector_store_id query model : string) : M world string :=
  response ← answer (new_assistant vector_store_id model) query None default_temperature;
  mret (answer_text response).






Record detail := {
  detail_query : string;
  detail_passed : bool;
  detail_answer : string;
  detail_sources : list string;
}.






End RagSuite.

(* ===================================================================== *)
(** * src/backend/api.py: GET .../batch/{batch_id}/status *)
(* ===================================================================== *)

Module ApiBatch.

Record BatchStatusResponse := {
  bs_success : bool;
  bs_batch_id : string;
  bs_status : string;
  bs_file_counts : file_counts;
  bs_is_complete : bool;
}.

(** [c.file_counts.<field> if c.file_counts else 0], field by field. *)
Definition counts_or_zero (c : option file_counts) : file_counts :=
  default (FileCounts 0 0 0 0 0) c.

(** [status not in ("queued", "in_progress")] *)
Definition is_complete (status : string) : bool :=
  negb (String.eqb status "queued" || String.eqb status "in_progress").

Definition get_batch_status (state : Api.AppState) (vector_store_id batch_id : string)
  : M world BatchStatusResponse :=
  if negb (Api.has_client state) then raise (HTTPException 400 "API key no configurada")
  else
    catch
      (batch ← file_batches_retrieve vector_store_id batch_id;
       mret {| bs_success := true;
               bs_batch_id := id batch;
               bs_status := status batch;
               bs_file_counts := counts_or_zero (counts batch);
               bs_is_complete := is_complete (status batch) |})
      (fun e => raise (HTTPException 500
                         ("Error al obtener estado del batch: " +:+ exn_str e))).

End ApiBatch.

(* ===================================================================== *)
(** * src/backend/api.py: POST /api/query over a file lookup whose answer
      may change from one call to the next *)
(* ===================================================================== *)

(** In [World] the answer of [client.files.retrieve] is a function of the
    file id.  The handler retries a lookup that failed, so what it does
    about lookups is also modelled over a provider that may fail a lookup
    and answer the same lookup later: [reply n file_id] is the answer to
    a lookup of [file_id] made after [n] earlier lookups.  The handler is
    the one of [Api], with this lookup in the place of
    [World.files_retrieve]. *)
Module ApiLookups.
Import Api.

Definition is_files_retrieve (c : call) : bool :=
  match c with
  | FilesRetrieve _ => true
  | _ => false
  end.

(** File lookups in a log. *)
Definition lookups_in (log : list call) : nat := length (List.filter is_files_retrieve log).

(** [client.files.retrieve(file_id).filename] *)
Definition files_retrieve (reply : nat -> string -> result string) (file_id : string)
  : M world string :=
  fun w => (reply (lookups_in (calls w)) file_id, record (FilesRetrieve file_id) 0 0 w).

(** Body of [for i, hit in enumerate(...)]. *)
Definition visit_hit (reply : nat -> string -> result string) (i : nat) (h : hit)
    (g : gathered) : M world gathered :=
  let file_id := hit_file_id h in
  txt ← lift (extract_text_from_hit h);
  if str_truthy txt then
    let chunks' := chunks g ++ ["[Chunk #" +:+ str_of_nat i +:+ "]" +:+ LF +:+ txt] in
    let unchanged := {| chunks := chunks';
                        found := found g;
                        file_id_to_name := file_id_to_name g |} in
    match file_id with
    | Some fid =>
        if str_truthy fid && bool_decide (file_id_to_name g !! fid = None) then
          info ← attempt (files_retrieve reply fid);
          match info with
          | Ok filename =>
              mret {| chunks := chunks';
                      found := if bool_decide (filename ∈ found g) then found g
                               else found g ++ [filename];
                      file_id_to_name := <[fid := filename]> (file_id_to_name g) |}
          | Raise _ => mret unchanged            (* except: pass *)
          end
        else mret unchanged
    | None => mret unchanged
    end
  else mret g.

Fixpoint visit_hits (reply : nat -> string -> result string) (i : nat) (hits : list hit)
    (g : gathered) : M world gathered :=
  match hits with
  | [] => mret g
  | h :: rest => g' ← visit_hit reply i h g; visit_hits reply (S i) rest g'
  end.

Definition retrieve (reply : nat -> string -> result string) (vs_id query : string)
  : M world (string * list string) :=
  search_data ← vector_store_search vs_id query 20;
  g ← visit_hits reply 1 (take 10 (VectorSearch.get_data search_data))
        {| chunks := []; found := []; file_id_to_name := ∅ |};
  let context := join VectorSearch.default_separator (chunks g) in
  mret (slice_to context 8000, found g).

Definition query_body (reply : nat -> string -> result string) (vs_id : string)
    (request : QueryRequest) : M world QueryResponse :=
  '(context, sources) ← retrieve reply vs_id (req_query request);
  if negb (str_truthy context) then
    mret {| success := true;
            answer := no_context_answer;
            sources := [];
            context := "" |}
  else
    reply ← chat_completions_create (req_model request)
              (query_messages context (req_query request)) (ReasoningEffort "high");
    mret {| success := true;
            answer := reply;
            sources := sources;
            context := if len context >? 500 then slice_to context 500 +:+ "..."
                       else context |}.

Definition query_rag (reply : nat -> string -> result string) (state : AppState)
    (request : QueryRequest) : M world QueryResponse :=
  if negb (has_client state) then raise (HTTPException 400 "API key no configurada")
  else
    match or_else (req_vector_store_id request) (state_vector_store_id state) with
    | Some vs_id =>
        if str_truthy vs_id then
          catch (query_body reply vs_id request) (fun e => raise (to_http_error e))
        else raise (HTTPException 400 "No hay Vector Store configurado. Crea uno primero.")
    | None => raise (HTTPException 400 "No hay Vector Store configurado. Crea uno primero.")
    end.

End ApiLookups.

(* ===================================================================== *)
(** * Further notions used in the statements *)
(* ===================================================================== *)

Module Notions.

Definition first_char (s : string) : option ascii :=
  match s with
  | EmptyString => None
  | String c _ => Some c
  end.

Fixpoint last_char (s : string) : option ascii :=
  match s with
  | EmptyString => None
  | String c rest =>
      match rest with
      | EmptyString => Some c
      | String _ _ => last_char rest
      end
  end.

(** No white space at either end. *)
Definition trimmed (s : string) : Prop :=
  (forall c, first_char s = Some c -> is_space c = false)
  /\ (forall c, last_char s = Some c -> is_space c = false).

(** [k] rounds of "read the status, sleep". *)
Fixpoint poll_rounds (k : nat) (vs_id batch_id : string) (poll_interval : Z) : list call :=
  match k with
  | O => []
  | S k' =>
      FileBatchesRetrieve vs_id batch_id :: Sleep poll_interval
        :: poll_rounds k' vs_id batch_id poll_interval
  end.

(** Every status read still to come succeeds and takes no negative time. *)
Definition reads_succeed (w : world) : Prop :=
  forall k, (polls w <= k)%nat ->
    (exists b, outcome (poll_script w k) = Ok b) /\ 0 <= latency (poll_script w k).

Definition is_lookup (c : call) : Prop := exists file_id, c = FilesRetrieve file_id.

(** How often [file_id] is looked up in a log. *)
Definition lookups_of (file_id : string) (log : list call) : nat :=
  length (List.filter (fun c => match c with
                                | FilesRetrieve f => String.eqb f file_id
                                | _ => false
                                end) log).

(** The world after one status read. *)
Definition after_read (vs_id batch_id : string) (w : world) : world :=
  record (FileBatchesRetrieve vs_id batch_id) (latency (poll_script w (polls w))) 1 w.

(** While the hits are visited, [extra] being the calls made since the
    request began in [w0]: a lookup that succeeded is of a file id the
    cache knows, and no lookup of that id follows it. *)
Definition lookups_kept (reply : nat -> string -> result string) (w0 : world)
    (extra : list call) (g : Api.gathered) : Prop :=
  forall before file_id after name,
    extra = before ++ FilesRetrieve file_id :: after ->
    reply (ApiLookups.lookups_in (calls w0 ++ before)) file_id = Ok name ->
    is_Some (Api.file_id_to_name g !! file_id) /\ lookups_of file_id after = 0%nat.

(** ** Rounds of the polling loop *)

(** The world after one round of the loop of [wait_for_batch]: a status
    read, then the sleep. *)
Definition after_round (vs_id batch_id : string) (poll_interval : Z) (w : world) : world :=
  record (Sleep poll_interval) (1000 * poll_interval) 0 (after_read vs_id batch_id w).

Fixpoint after_rounds (k : nat) (vs_id batch_id : string) (poll_interval : Z) (w : world)
  : world :=
  match k with
  | O => w
  | S k' => after_rounds k' vs_id batch_id poll_interval
              (after_round vs_id batch_id poll_interval w)
  end.

(** Milliseconds that [k] rounds take on the clock, the first of them
    getting answer number [from] of the script: the time of each read plus
    the sleep. *)
Fixpoint rounds_ms (k : nat) (poll_interval : Z) (script : nat -> poll_outcome)
    (from : nat) : Z :=
  match k with
  | O => 0
  | S k' => latency (script from) + 1000 * poll_interval
            + rounds_ms k' poll_interval script (S from)
  end.

(** The next [k] rounds go through: the sleep is accepted, and each read
    takes no negative time, succeeds and reports a status that is not
    terminal. *)
Definition rounds_pass (k : nat) (poll_interval : Z) (w : world) : Prop :=
  forall j, (j < k)%nat ->
    0 <= poll_interval
    /\ 0 <= latency (poll_script w (polls w + j))
    /\ exists b, outcome (poll_script w (polls w + j)) = Ok b
                 /\ ~ Reading.terminal (status b).

(** The local variable [batch] after [k] rounds: what the last read
    returned. *)
Definition last_read (k : nat) (w : world) (last : option batch) : option batch :=
  match k with
  | O => last
  | S k' =>
      match outcome (poll_script w (polls w + k')) with
      | Ok b => Some b
      | Raise _ => None
      end
  end.

End Notions.

(* ===================================================================== *)
(** * Notions about the test suite *)
(* ===================================================================== *)

Module SuiteNotions.
Import RagSuite.



End SuiteNotions.

(* ===================================================================== *)
(** * Sample data *)
(* ===================================================================== *)

Module Samples.

(** The binary64 number nearest to 0.9. *)
Definition score_0_9 : pynum := PFloat (S754_finite false 8106479329266893 (-53)).

Definition hit_direct : hit :=
  Hit (Some "file-1") (Some "a.md") (Some score_0_9)
      (Some (JList [JDict [("type", JStr "text"); ("text", JStr "Ship in 3 days")]])).

Definition hit_nested : hit :=
  Hit (Some "file-2") (Some "b.md") (Some score_0_9)
      (Some (JList [JDict [("type", JStr "text");
                           ("text", JDict [("value", JStr "hello")])]])).

Definition hit_typed : hit :=
  Hit (Some "file-3") (Some "c.md") (Some score_0_9)
      (Some (JList [JDict [("type", JStr "text"); ("value", JStr "hello")]])).

Definition hit_no_text : hit :=
  Hit (Some "file-4") (Some "d.md") (Some score_0_9) (Some (JList [])).

Definition in_progress_batch (c : option file_counts) : batch :=
  Batch "vsfb_1" "in_progress" c.

(** A provider that finds [hits], knows every file under the name
    ["stored-" + file_id], answers every chat with ["model reply"],
    accepts every batch, and answers status reads from [script]. *)
Definition world_with (hits : list hit) (script : nat -> poll_outcome) : world :=
  {| clock := 1700000000123;
     polls := 0;
     calls := [];
     search_reply := fun _ _ _ => Ok (SearchResults (Some hits));
     files_reply := fun file_id => Ok ("stored-" +:+ file_id);
     chat_reply := fun _ _ _ => Ok "model reply";
     create_reply := fun _ _ _ => Ok (in_progress_batch None);
     poll_script := script |}.

Definition always (b : batch) : nat -> poll_outcome := fun _ => Poll 200 (Ok b).

(** The binary64 number nearest to 0.7, the default temperature. *)
Definition temperature_0_7 : spec_float := S754_finite false 6305039478318694 (-53).

Definition assistant : RagAssistant.RAGAssistant :=
  {| RagAssistant.vector_store_id := "vs_1";
     RagAssistant.model := "gpt-4.1";
     RagAssistant.system_prompt := "Answer from the context.";
     RagAssistant.max_results := 5;
     RagAssistant.max_context_chars := 8000 |}.

Definition app_state : Api.AppState :=
  {| Api.has_client := true;
     Api.api_key := Some "sk-test";
     Api.state_vector_store_id := Some "vs_1" |}.

Definition request : Api.QueryRequest :=
  {| Api.req_query := "shipping time";
     Api.req_vector_store_id := None;
     Api.req_model := "gpt-5-mini" |}.

(** ** More sample data *)

Definition hit_scored (name : string) (score : option pynum) : hit :=
  Hit (Some ("id-" +:+ name)) (Some name) score
      (Some (JList [JDict [("type", JStr "text"); ("text", JStr ("text of " +:+ name))]])).

(** 0.5 and 0.25 as binary64 numbers. *)
Definition half : spec_float := S754_finite false 4503599627370496 (-53).
Definition quarter : spec_float := S754_finite false 4503599627370496 (-54).

(** Status reads that say "in_progress" [n] times, then [final]. *)
Definition then_final (n : nat) (final : string) : nat -> poll_outcome :=
  fun k => Poll 200 (Ok (Batch "vsfb_1" (if (k <? n)%nat then "in_progress" else final) None)).

(** A provider whose file lookup fails for ["file-1"]. *)
Definition world_lookup_fails (hits : list hit) : world :=
  {| clock := 1700000000123;
     polls := 0;
     calls := [];
     search_reply := fun _ _ _ => Ok (SearchResults (Some hits));
     files_reply := fun file_id =>
       if String.eqb file_id "file-1" then Raise (UpstreamError "no such file")
       else Ok ("stored-" +:+ file_id);
     chat_reply := fun _ _ _ => Ok "Shipping takes 3 DAYS.";
     create_reply := fun _ _ _ => Ok (in_progress_batch None);
     poll_script := always (in_progress_batch None) |}.

(** A file lookup that fails the first time it is asked and answers
    from then on. *)
Definition fails_once : nat -> string -> result string :=
  fun n file_id =>
    if (n =? 0)%nat then Raise (UpstreamError "try again later")
    else Ok ("stored-" +:+ file_id).

End Samples.

(* ===================================================================== *)
(** * Facts about the string operations *)
(* ===================================================================== *)

Module PyFacts.

Lemma length_append (s1 s2 : string) :
  String.length (s1 +:+ s2) = (String.length s1 + String.length s2)%nat.
Proof. induction s1 as [|c s1 IH]; simpl; [done | by rewrite IH]. Qed.

Lemma len_append (s1 s2 : string) : len (s1 +:+ s2) = len s1 + len s2.
Proof. unfold len. rewrite length_append. lia. Qed.

Lemma len_nonneg (s : string) : 0 <= len s.
Proof. unfold len. lia. Qed.

Lemma length_str_take (n : nat) (s : string) :
  String.length (str_take n s) = (n `min` String.length s)%nat.
Proof.
  revert s. induction n as [|n IH]; intros [|c s]; simpl; try done.
  by rewrite IH.
Qed.

Lemma len_slice_to_nonneg (s : string) (n : Z) :
  0 <= n -> len (slice_to s n) = Z.min n (len s).
Proof.
  intros Hn. unfold slice_to, len.
  destruct (Z.leb_spec 0 n); [|lia]. rewrite length_str_take. lia.
Qed.

End PyFacts.

(* ===================================================================== *)
(** * Properties of src/vector_search.py *)
(* ===================================================================== *)

Module VectorSearchFacts.
Import VectorSearch Reading PyFacts Samples.

(** ** Text extraction *)

Lemma collect_part_spec (texts : list json) (part : json) :
  collect_part texts part = Ok (texts ++ option_list (text_entry part)).
Proof.
  destruct part; simpl; try by rewrite app_nil_r.
  unfold dict_contains, dict_item.
  destruct (dict_lookup "text" d) as [v|]; simpl; [done|].
  by rewrite andb_false_r, app_nil_r.
Qed.

Lemma collect_parts_spec (parts texts : list json) :
  collect_parts texts parts = Ok (texts ++ omap text_entry parts).
Proof.
  revert texts. induction parts as [|p parts IH]; intros texts; simpl.
  - by rewrite app_nil_r.
  - rewrite collect_part_spec. simpl. rewrite IH, <- app_assoc. f_equal. f_equal.
    by destruct (text_entry p).
Qed.

Lemma str_items_raises (l : list json) (i : nat) :
  Exists (fun v => forall s, v <> JStr s) l ->
  exists msg, str_items i l = Raise (TypeError msg).
Proof.
  revert i. induction l as [|v l IH]; intros i Hex; [by apply Exists_nil in Hex|].
  destruct v; simpl; eauto.
  apply Exists_cons in Hex as [Hv | Hl]; [by destruct (Hv s)|].
  destruct (IH (S i) Hl) as [msg ->]. simpl. eauto.
Qed.

Lemma extract_text_raises (h : hit) (parts : list json) :
  hit_content h = Some (JList parts) ->
  Exists non_string_text parts ->
  exists msg, extract_text_from_hit h = Raise (TypeError msg).
Proof.
  intros Hc Hbad. unfold extract_text_from_hit. rewrite Hc. simpl.
  rewrite collect_parts_spec. simpl.
  destruct (str_items_raises (omap text_entry parts) 0) as [msg Hmsg].
  - apply Exists_exists in Hbad as (p & Hp & d & v & -> & Hv & Hns).
    apply Exists_exists. exists v. split; [|done].
    apply list_elem_of_omap. exists (JDict d). split; [|done].
    done.
  - unfold join_items. rewrite Hmsg. simpl. eauto.
Qed.

(** ** Context assembly *)

Lemma enumerate_from_cons {A : Type} (i : nat) (a : A) (l : list A) :
  enumerate_from i (a :: l) = (i, a) :: enumerate_from (S i) l.
Proof.
  unfold enumerate_from. rewrite imap_cons. f_equal; [f_equal; lia|].
  apply imap_ext. intros k x _. simpl. f_equal. lia.
Qed.

Lemma collect_snippets_raises (inc : bool) (hits : list hit) (h : hit) (e : exn) :
  h ∈ hits -> extract_text_from_hit h = Raise e ->
  forall i acc, exists e', collect_snippets inc i hits acc = Raise e'.
Proof.
  intros Hin He. induction hits as [|h' hits IH]; [by apply elem_of_nil in Hin|].
  intros i acc. simpl.
  destruct (extract_text_from_hit h') as [t|e0] eqn:Hh'; simpl; [|eauto].
  apply elem_of_cons in Hin as [-> | Hin]; [congruence|].
  destruct (str_truthy t); [|by apply IH].
  destruct (snippet inc i h' t); simpl; [by apply IH | eauto].
Qed.

Lemma collect_snippets_blocks (inc : bool) (hits : list hit) :
  Forall (fun h => exists t, extract_text_from_hit h = Ok t) hits ->
  forall i acc,
    collect_snippets inc i hits acc =
    (blocks ← mapM (fun b : nat * hit * string => snippet inc b.1.1 b.1.2 b.2)
                (omap keep_numbered (enumerate_from i hits));
     Ok (acc ++ blocks)).
Proof.
  induction 1 as [|h hits [t Ht] _ IH]; intros i acc.
  - simpl. by rewrite app_nil_r.
  - rewrite enumerate_from_cons. simpl.
    unfold keep_numbered at 1, text_of. simpl. rewrite Ht. simpl.
    destruct (str_truthy t); simpl; [|apply IH].
    destruct (snippet inc i h t) as [s|e]; simpl; [|done].
    rewrite IH.
    destruct (mapM _ _) as [bs|e]; simpl; [|done].
    by rewrite <- app_assoc.
Qed.

(** ** Hits of the documented shape are processed without exception *)

Lemma str_items_plain (l : list json) (i : nat) :
  Forall (fun v => exists s, v = JStr s) l -> exists ss, str_items i l = Ok ss.
Proof.
  revert i. induction l as [|v l IH]; intros i Hall; simpl; [eauto|].
  apply Forall_cons in Hall as [[s ->] Hl].
  destruct (IH (S i) Hl) as [ss ->]. simpl. eauto.
Qed.

Lemma extract_text_plain (h : hit) :
  plain_hit h -> exists t, extract_text_from_hit h = Ok t.
Proof.
  intros [[Hnone | (parts & Hparts & Hplain)] _]; unfold extract_text_from_hit.
  - rewrite Hnone. simpl. eauto.
  - rewrite Hparts. simpl. rewrite collect_parts_spec. simpl.
    destruct (str_items_plain (omap text_entry parts) 0) as [ss Hss].
    + apply Forall_forall. intros v Hv.
      apply list_elem_of_omap in Hv as (p & Hp & Hv).
      rewrite Forall_forall in Hplain. by apply (Hplain p).
    + unfold join_items. rewrite Hss. simpl. eauto.
Qed.

Lemma snippet_plain (inc : bool) (i : nat) (h : hit) (text : string) :
  plain_hit h -> exists s, snippet inc i h text = Ok s.
Proof.
  intros [_ Hscore]. unfold snippet. destruct inc; [|eauto].
  destruct Hscore as [-> | [f ->]]; simpl; eauto.
Qed.

Lemma collect_snippets_plain (inc : bool) (hits : list hit) :
  Forall plain_hit hits ->
  forall i acc, exists snippets, collect_snippets inc i hits acc = Ok snippets.
Proof.
  induction 1 as [|h hits Hh _ IH]; intros i acc; simpl; [eauto|].
  destruct (extract_text_plain h Hh) as [t ->]. simpl.
  destruct (str_truthy t); [|apply IH].
  destruct (snippet_plain inc i h t Hh) as [s ->]. simpl. apply IH.
Qed.

(** Over hits of the documented shape [extract_context] returns. *)
Lemma extract_context_returns (sr : search_results) (max_chars : Z) (inc : bool)
    (sep : string) :
  Forall plain_hit (get_data sr) ->
  exists ctx, extract_context sr max_chars inc sep = Ok ctx.
Proof.
  intros Hplain. unfold extract_context.
  destruct (collect_snippets_plain inc _ Hplain 1%nat []) as [snippets ->]. simpl.
  destruct (len (join sep snippets) >? max_chars); eauto.
Qed.

(** ** Numbering of the blocks *)

(** C7, as amended: when every hit's text can be extracted,
    [extract_context] renders one block per hit that has text, in hit
    order, and labels it with the 1-based position the hit has in the
    whole hit list (a hit without text produces no block but its
    position is not reused); the joined blocks are then truncated.
    With [include_source] the label is
    "[KB#<position> - <filename or unknown> (score: <score, two decimals>)]",
    otherwise "[KB#<position>]", followed by a newline and the text. *)
Theorem extract_context_numbers_by_position
    (sr : search_results) (max_chars : Z) (inc : bool) (sep : string) :
  Forall (fun h => exists t, extract_text_from_hit h = Ok t) (get_data sr) ->
  extract_context sr max_chars inc sep =
    (blocks ← position_blocks inc (get_data sr);
     Ok (truncate max_chars (join sep blocks)))
  /\ (forall i h text sc,
        format_2f (default (PInt 0) (hit_score h)) = Ok sc ->
        snippet true i h text =
        Ok (("[KB#" +:+ str_of_nat i +:+ " - " +:+ default "unknown" (hit_filename h) +:+
             " (score: " +:+ sc +:+ ")]") +:+ LF +:+ text))
  /\ (forall i h text,
        snippet false i h text = Ok ("[KB#" +:+ str_of_nat i +:+ "]" +:+ LF +:+ text)).
Proof.
  intros Hok. split; [|split].
  - unfold extract_context, position_blocks.
    rewrite (collect_snippets_blocks inc _ Hok 1 []).
    destruct (mapM _ _) as [blocks|e]; simpl; [|done].
    unfold truncate. by destruct (len (join sep blocks) >? max_chars).
  - intros i h text sc Hsc. unfold snippet. rewrite Hsc. reflexivity.
  - done.
Qed.

Lemma extract_context_numbers_by_position_witness :
  let sr := SearchResults (Some [hit_no_text; hit_direct; hit_no_text; hit_direct]) in
  Forall (fun h => exists t, extract_text_from_hit h = Ok t) (get_data sr) /\
  extract_context sr 8000 true default_separator =
    Ok ("[KB#2 - a.md (score: 0.90)]" +:+ LF +:+ "Ship in 3 days" +:+
        default_separator +:+
        "[KB#4 - a.md (score: 0.90)]" +:+ LF +:+ "Ship in 3 days").
Proof.
  assert (Hok : Forall (fun h => exists t, extract_text_from_hit h = Ok t)
                  (get_data (SearchResults
                     (Some [hit_no_text; hit_direct; hit_no_text; hit_direct])))).
  { repeat constructor; eexists; vm_compute; reflexivity. }
  split; [exact Hok|].
  rewrite (proj1 (extract_context_numbers_by_position _ 8000 true default_separator Hok)).
  vm_compute. reflexivity.
Defined.

(** C7, as stated, fails: a hit without text in front of a hit with
    text makes the latter block number 2, where consecutive numbering of
    the surviving hits asks for number 1. *)
Lemma extract_context_numbering_counterexample :
  let sr := SearchResults (Some [hit_no_text; hit_direct]) in
  extract_context sr 8000 true default_separator =
    Ok ("[KB#2 - a.md (score: 0.90)]" +:+ LF +:+ "Ship in 3 days")
  /\ spec_extract_context sr 8000 true default_separator =
    Ok ("[KB#1 - a.md (score: 0.90)]" +:+ LF +:+ "Ship in 3 days")
  /\ extract_context sr 8000 true default_separator <>
     spec_extract_context sr 8000 true default_separator.
Proof. vm_compute. repeat split; try reflexivity. discriminate. Qed.

(** The scenario of the specification: one hit, labelled 1. *)
Example extract_context_scenario :
  extract_context (SearchResults (Some [hit_direct])) 8000 true default_separator =
  Ok ("[KB#1 - a.md (score: 0.90)]" +:+ LF +:+ "Ship in 3 days").
Proof. vm_compute. reflexivity. Qed.

(** ** Truncation *)

(** C8, as amended: for [max_chars >= 0], whenever [extract_context]
    returns, its result is at most [max_chars] plus the marker long; it
    is the untruncated join exactly when that join is at most
    [max_chars] long, and otherwise the first [max_chars] characters of
    the join followed by the marker (the cut is made once, on the joined
    string). *)
Theorem extract_context_truncation
    (sr : search_results) (max_chars : Z) (inc : bool) (sep ctx : string) :
  0 <= max_chars ->
  extract_context sr max_chars inc sep = Ok ctx ->
  exists snippets,
    collect_snippets inc 1 (get_data sr) [] = Ok snippets
    /\ len ctx <= max_chars + len truncation_marker
    /\ (len (join sep snippets) <= max_chars -> ctx = join sep snippets)
    /\ (max_chars < len (join sep snippets) ->
        ctx = str_take (Z.to_nat max_chars) (join sep snippets) +:+ truncation_marker).
Proof.
  intros Hmax. unfold extract_context.
  destruct (collect_snippets inc 1 (get_data sr) []) as [snippets|e]; simpl; [|done].
  intros Hctx. exists snippets. split; [done|].
  destruct (Z.gtb_spec (len (join sep snippets)) max_chars) as [Hlong|Hshort];
    injection Hctx as <-.
  - rewrite len_append, len_slice_to_nonneg by done.
    split; [lia|]. split; [lia|].
    intros _. unfold slice_to. by destruct (Z.leb_spec 0 max_chars); [|lia].
  - pose proof (len_nonneg truncation_marker).
    split; [lia|]. split; [done | lia].
Qed.

Lemma extract_context_truncation_witness :
  exists snippets,
    collect_snippets true 1 [hit_direct; hit_direct] [] = Ok snippets
    /\ len ("[KB#1 - a.md (score: 0.90)]" +:+ LF +:+ "Ship" +:+ truncation_marker)
       <= 32 + len truncation_marker
    /\ (len (join default_separator snippets) <= 32 ->
        "[KB#1 - a.md (score: 0.90)]" +:+ LF +:+ "Ship" +:+ truncation_marker
        = join default_separator snippets)
    /\ (32 < len (join default_separator snippets) ->
        "[KB#1 - a.md (score: 0.90)]" +:+ LF +:+ "Ship" +:+ truncation_marker
        = str_take (Z.to_nat 32) (join default_separator snippets) +:+ truncation_marker).
Proof.
  apply (extract_context_truncation
           (SearchResults (Some [hit_direct; hit_direct])) 32 true default_separator).
  - lia.
  - vm_compute. reflexivity.
Defined.

(** C8, as stated for every [max_chars], fails for a negative one: the
    slice then drops characters from the end only, and the result is
    longer than [max_chars] plus the marker. *)
Lemma extract_context_truncation_counterexample :
  extract_context (SearchResults (Some [hit_direct])) (-5) true default_separator =
    Ok ("[KB#1 - a.md (score: 0.90)]" +:+ LF +:+ "Ship in 3" +:+ truncation_marker)
  /\ ~ (len ("[KB#1 - a.md (score: 0.90)]" +:+ LF +:+ "Ship in 3" +:+ truncation_marker)
        <= -5 + len truncation_marker).
Proof. split; [vm_compute; reflexivity | vm_compute; intros H; apply H; reflexivity]. Qed.

(** ** Content parts that are not strings *)

(** C9: a hit whose content list has a dictionary part with a ["text"]
    entry that is not a string (the nested shape, for one) makes
    [extract_text_from_hit] raise the [TypeError] of [str.join]; the hit
    is not dropped, and [extract_context] over any hit list holding it
    ends in an exception (that very [TypeError] when the hit comes
    first). *)
Theorem extract_text_non_string_raises
    (h : hit) (parts : list json) (rest : list hit)
    (max_chars : Z) (inc : bool) (sep : string) :
  hit_content h = Some (JList parts) ->
  Exists non_string_text parts ->
  (exists msg,
      extract_text_from_hit h = Raise (TypeError msg)
      /\ extract_context (SearchResults (Some (h :: rest))) max_chars inc sep
         = Raise (TypeError msg))
  /\ (forall hits, h ∈ hits ->
        exists e, extract_context (SearchResults (Some hits)) max_chars inc sep = Raise e)
  /\ (forall hits vs_id query max_results w, h ∈ hits ->
        search_reply w vs_id query max_results = Ok (SearchResults (Some hits)) ->
        exists e, (search_and_extract vs_id query max_results max_chars w).1 = Raise e).
Proof.
  intros Hc Hbad. destruct (extract_text_raises h parts Hc Hbad) as [msg Hmsg].
  assert (Haborts : forall hits inc', h ∈ hits ->
            exists e, extract_context (SearchResults (Some hits)) max_chars inc' sep
                      = Raise e).
  { intros hits inc' Hin. unfold extract_context, get_data. simpl default.
    destruct (collect_snippets_raises inc' hits h _ Hin Hmsg 1%nat []) as [e ->].
    simpl. eauto. }
  split; [|split].
  - exists msg. split; [done|].
    unfold extract_context. simpl. by rewrite Hmsg.
  - intros hits Hin. by apply Haborts.
  - intros hits vs_id query max_results w Hin Hsearch.
    unfold search_and_extract, search_vector_store, vector_store_search, lift,
      mbind, M_bind.
    rewrite Hsearch. unfold extract_context, get_data. simpl default.
    destruct (collect_snippets_raises true hits h _ Hin Hmsg 1%nat []) as [e ->].
    simpl. eauto.
Qed.

Lemma extract_text_non_string_raises_witness :
  (exists msg,
      extract_text_from_hit hit_nested = Raise (TypeError msg)
      /\ extract_context (SearchResults (Some [hit_nested; hit_direct])) 8000 true
           default_separator = Raise (TypeError msg))
  /\ (forall hits, hit_nested ∈ hits ->
        exists e, extract_context (SearchResults (Some hits)) 8000 true
                    default_separator = Raise e)
  /\ (forall hits vs_id query max_results w, hit_nested ∈ hits ->
        search_reply w vs_id query max_results = Ok (SearchResults (Some hits)) ->
        exists e, (search_and_extract vs_id query max_results 8000 w).1 = Raise e).
Proof.
  apply (extract_text_non_string_raises hit_nested
           [JDict [("type", JStr "text"); ("text", JDict [("value", JStr "hello")])]]).
  - reflexivity.
  - apply Exists_cons_hd. eexists _, _. split; [reflexivity|].
    split; [vm_compute; reflexivity | discriminate].
Defined.

Example extract_text_nested_shape :
  extract_text_from_hit hit_nested =
  Raise (TypeError "sequence item 0: expected str instance, dict found").
Proof. vm_compute. reflexivity. Qed.

(** ** The three shapes *)

(** The handler of /api/query tries the three shapes in order, the
    first that matches giving the text of the part. *)
Lemma api_collect_part_shapes (texts : list string) (p : json) :
  Api.collect_part texts p = texts ++ option_list (part_text p).
Proof.
  destruct p; simpl; try by rewrite app_nil_r.
  unfold part_text, first_match, shape_direct, shape_nested, shape_typed.
  destruct (dict_get "text" d) as [| | | | t | |inner]; simpl;
    try (destruct (eq_str (dict_get "type" d) "text");
         [destruct (dict_get "value" d)|]; simpl; by rewrite ?app_nil_r).
  destruct (dict_get "value" inner); simpl; try done;
    (destruct (eq_str (dict_get "type" d) "text");
     [destruct (dict_get "value" d)|]; simpl; by rewrite ?app_nil_r).
Qed.

Lemma api_collect_parts_shapes (parts : list json) (texts : list string) :
  fold_left Api.collect_part parts texts = texts ++ omap part_text parts.
Proof.
  revert texts. induction parts as [|p parts IH]; intros texts; simpl.
  - by rewrite app_nil_r.
  - rewrite IH, api_collect_part_shapes, <- app_assoc. f_equal.
    by destruct (part_text p).
Qed.

(** X5: for a hit whose content is a list, the extractor of the
    /api/query handler takes from each part the text of the first shape
    that matches among [{"text": str}], [{"text": {"value": str}}] and
    [{"type": "text", "value": str}], drops the texts that are empty or
    blank, strips each one, joins them with newlines and strips the
    result. *)
Lemma api_extract_text_shapes (h : hit) (parts : list json) :
  hit_content h = Some (JList parts) ->
  Api.extract_text_from_hit h =
  Ok (strip (join LF (map strip (List.filter Api.keeps (omap part_text parts))))).
Proof.
  intros Hc. unfold Api.extract_text_from_hit. rewrite Hc.
  replace (if truthy (default (JList []) (Some (JList parts)))
           then default (JList []) (Some (JList parts)) else JList [])
    with (JList parts) by (by destruct parts).
  unfold mbind, result_bind, iterate.
  by rewrite api_collect_parts_shapes.
Qed.

(** C3 on [vector_search.py]: of the three shapes only the direct one
    is read.  The nested shape makes [extract_text_from_hit] raise, the
    typed shape gives no text, while the reading of the specification
    and the handler of /api/query both give "hello". *)
Theorem vector_search_extract_misses_shapes :
  extract_text_from_hit hit_nested =
    Raise (TypeError "sequence item 0: expected str instance, dict found")
  /\ extract_text_from_hit hit_typed = Ok ""
  /\ extract_text_from_hit hit_direct = Ok "Ship in 3 days"
  /\ (spec_hit_text <$> (hit_content hit_nested ≫= fun c => match c with JList l => Some l | _ => None end))
     = Some "hello"
  /\ (spec_hit_text <$> (hit_content hit_typed ≫= fun c => match c with JList l => Some l | _ => None end))
     = Some "hello"
  /\ Api.extract_text_from_hit hit_nested = Ok "hello"
  /\ Api.extract_text_from_hit hit_typed = Ok "hello".
Proof. vm_compute. repeat split; reflexivity. Qed.

End VectorSearchFacts.

(* ===================================================================== *)
(** * Properties of src/batch_manager.py *)
(* ===================================================================== *)

Module BatchManagerFacts.
Import BatchManager Reading Notions Samples.

(** ** Creation *)

(** C4, as amended: [create_file_batch] does not look at [file_ids].
    Called with the empty list it submits the empty list to the
    indexer, once, and returns the id of the batch the indexer reports,
    or passes on the indexer's error. *)
Theorem create_file_batch_submits_empty_list
    (vs_id : string) (chunking_strategy : option json) (w : world) :
  exists passed,
    passed = match chunking_strategy with
             | Some cs => if truthy cs then Some cs else None
             | None => None
             end
    /\ create_file_batch vs_id [] chunking_strategy w =
       (b ← create_reply w vs_id [] passed; Ok (id b),
        record (FileBatchesCreate vs_id [] passed) 0 0 w).
Proof.
  eexists. split; [reflexivity|].
  unfold create_file_batch, file_batches_create, mbind, M_bind, result_bind.
  by destruct (create_reply w vs_id [] _).
Qed.

(** C4, as stated, fails: with an indexer that accepts the request the
    call with no file at all succeeds, and the log shows the submission. *)
Lemma create_file_batch_empty_counterexample :
  let run := create_file_batch "vs_1" [] None (world_with [] (always (in_progress_batch None))) in
  run.1 = Ok "vsfb_1"
  /\ calls run.2 = [FileBatchesCreate "vs_1" [] None]
  /\ ~ (exists e, run.1 = Raise e).
Proof. vm_compute. repeat split; try reflexivity. intros [e He]. discriminate. Qed.

(** ** The polling loop *)

Lemma elapsed_seconds_div (now start : Z) :
  start <= now -> elapsed_seconds now start = (now - start) / 1000.
Proof. intros H. unfold elapsed_seconds. apply Z.quot_div_nonneg; lia. Qed.

(** A pass that reads a terminal status leaves the loop with it, and
    nothing happens after the read. *)
Lemma wait_loop_terminal (fuel : nat) (vs_id batch_id : string)
    (timeout_seconds poll_interval start_time : Z) (last : option batch)
    (w : world) (b : batch) :
  elapsed_seconds (clock w) start_time < timeout_seconds ->
  outcome (poll_script w (polls w)) = Ok b ->
  terminal (status b) ->
  wait_loop (S fuel) vs_id batch_id timeout_seconds poll_interval start_time last w =
  Some (Ok (status b),
        record (FileBatchesRetrieve vs_id batch_id) (latency (poll_script w (polls w))) 1 w).
Proof.
  intros Hel Hpoll Hterm. simpl.
  unfold wait_pass, time_time, get_batch_status, file_batches_retrieve,
    mbind, M_bind, mret, M_ret.
  destruct (Z.leb_spec timeout_seconds (elapsed_seconds (clock w) start_time)); [lia|].
  rewrite Hpoll.
  destruct Hterm as [-> | [-> | ->]]; reflexivity.
Qed.

(** ** Rounds that go through *)

Lemma elapsed_after_ms (start ms : Z) :
  0 <= ms -> elapsed_seconds (start + ms) start = ms / 1000.
Proof.
  intros Hms. unfold elapsed_seconds.
  replace (start + ms - start) with ms by lia.
  apply Z.quot_div_nonneg; lia.
Qed.

Lemma polls_after_rounds (vs_id batch_id : string) (poll_interval : Z) (k : nat) :
  forall w, polls (after_rounds k vs_id batch_id poll_interval w) = (polls w + k)%nat.
Proof.
  induction k as [|k IH]; intros w; simpl; [lia|]. rewrite IH. simpl. lia.
Qed.

Lemma poll_script_after_rounds (vs_id batch_id : string) (poll_interval : Z) (k : nat) :
  forall w, poll_script (after_rounds k vs_id batch_id poll_interval w) = poll_script w.
Proof. induction k as [|k IH]; intros w; simpl; [done|]. by rewrite IH. Qed.

Lemma clock_after_rounds (vs_id batch_id : string) (poll_interval : Z) (k : nat) :
  forall w,
    clock (after_rounds k vs_id batch_id poll_interval w)
    = clock w + rounds_ms k poll_interval (poll_script w) (polls w).
Proof.
  induction k as [|k IH]; intros w; simpl; [lia|]. rewrite IH. simpl.
  replace (polls w + 1 + 0)%nat with (S (polls w)) by lia. lia.
Qed.

Lemma calls_after_rounds (vs_id batch_id : string) (poll_interval : Z) (k : nat) :
  forall w,
    calls (after_rounds k vs_id batch_id poll_interval w)
    = calls w ++ poll_rounds k vs_id batch_id poll_interval.
Proof.
  induction k as [|k IH]; intros w; simpl; [by rewrite app_nil_r|].
  rewrite IH. simpl. by rewrite <- !app_assoc.
Qed.

Lemma rounds_ms_nonneg (poll_interval : Z) (script : nat -> poll_outcome) (k : nat) :
  forall from,
    (forall i, (i < k)%nat -> 0 <= latency (script (from + i)%nat) + 1000 * poll_interval) ->
    0 <= rounds_ms k poll_interval script from.
Proof.
  induction k as [|k IH]; intros from Hpos; simpl; [lia|].
  pose proof (Hpos O ltac:(lia)) as H0. rewrite Nat.add_0_r in H0.
  assert (0 <= rounds_ms k poll_interval script (S from)); [|lia].
  apply IH. intros i Hi. specialize (Hpos (S i) ltac:(lia)).
  by replace (S from + i)%nat with (from + S i)%nat by lia.
Qed.

Lemma rounds_ms_le (poll_interval : Z) (script : nat -> poll_outcome) (k : nat) :
  forall from j,
    (forall i, (i < k)%nat -> 0 <= latency (script (from + i)%nat) + 1000 * poll_interval) ->
    (j <= k)%nat ->
    rounds_ms j poll_interval script from <= rounds_ms k poll_interval script from.
Proof.
  induction k as [|k IH]; intros from j Hpos Hj.
  - by replace j with O by lia.
  - destruct j as [|j]; [by apply (rounds_ms_nonneg _ _ (S k))|]. simpl.
    assert (rounds_ms j poll_interval script (S from)
            <= rounds_ms k poll_interval script (S from)); [|lia].
    apply IH; [|lia]. intros i Hi. specialize (Hpos (S i) ltac:(lia)).
    by replace (S from + i)%nat with (from + S i)%nat by lia.
Qed.

Lemma rounds_pass_time (k : nat) (poll_interval : Z) (w : world) :
  rounds_pass k poll_interval w ->
  forall i, (i < k)%nat ->
    0 <= latency (poll_script w (polls w + i)%nat) + 1000 * poll_interval.
Proof. intros Hpass i Hi. destruct (Hpass i Hi) as (? & ? & _). lia. Qed.

Lemma rounds_pass_fewer (k j : nat) (poll_interval : Z) (w : world) :
  rounds_pass k poll_interval w -> (j <= k)%nat -> rounds_pass j poll_interval w.
Proof. intros Hpass Hj i Hi. apply Hpass. lia. Qed.

Lemma never_terminal_rounds_pass (k : nat) (poll_interval : Z) (w : world) :
  0 <= poll_interval -> never_terminal w -> rounds_pass k poll_interval w.
Proof.
  intros Hpi Hnt j _. destruct (Hnt (polls w + j)%nat) as (b & Hb & Hnot & Hlat); [lia|].
  split; [done|]. split; [done|]. by exists b.
Qed.

(** Rounds that begin less than [timeout_seconds] after the call begin
    before the timeout check fires. *)
Lemma early_rounds (k : nat) (timeout_seconds poll_interval : Z) (w : world) :
  rounds_pass k poll_interval w ->
  rounds_ms k poll_interval (poll_script w) (polls w) < 1000 * timeout_seconds ->
  forall j, (j <= k)%nat ->
    elapsed_seconds (clock w + rounds_ms j poll_interval (poll_script w) (polls w)) (clock w)
    < timeout_seconds.
Proof.
  intros Hpass Hms j Hj.
  pose proof (rounds_ms_le _ _ _ _ j (rounds_pass_time _ _ _ Hpass) Hj) as Hle.
  pose proof (rounds_ms_nonneg _ _ j (polls w)
                (rounds_pass_time _ _ _ (rounds_pass_fewer _ _ _ _ Hpass Hj))) as Hnn.
  rewrite elapsed_after_ms by done.
  apply Z.div_lt_upper_bound; lia.
Qed.

(** A pass before the deadline that reads a status that is not terminal
    sleeps and goes round again. *)
Lemma wait_pass_round (vs_id batch_id : string)
    (timeout_seconds poll_interval start_time : Z) (last : option batch) (w : world)
    (b : batch) :
  elapsed_seconds (clock w) start_time < timeout_seconds ->
  0 <= poll_interval ->
  outcome (poll_script w (polls w)) = Ok b ->
  ~ terminal (status b) ->
  wait_pass vs_id batch_id timeout_seconds poll_interval start_time last w
  = (Ok (Again b), after_round vs_id batch_id poll_interval w).
Proof.
  intros Hel Hpi Hb Hnot.
  unfold wait_pass, after_round, after_read, time_time, get_batch_status,
    file_batches_retrieve, time_sleep, mbind, M_bind, mret, M_ret.
  destruct (Z.leb_spec timeout_seconds (elapsed_seconds (clock w) start_time)); [lia|].
  rewrite Hb.
  destruct (String.eqb_spec (status b) "completed") as [E|_]; [by destruct Hnot; left|].
  destruct (String.eqb_spec (status b) "failed") as [E|_];
    [by destruct Hnot; right; left|].
  destruct (String.eqb_spec (status b) "cancelled") as [E|_];
    [by destruct Hnot; right; right|].
  by destruct (Z.ltb_spec poll_interval 0); [lia|].
Qed.

(** [k] rounds that go through, each begun before the deadline, use up
    [k] passes of the loop and leave it in the world after [k] rounds. *)
Lemma wait_loop_rounds (vs_id batch_id : string)
    (timeout_seconds poll_interval start_time : Z) (k : nat) :
  forall (fuel : nat) (last : option batch) (w : world),
    rounds_pass k poll_interval w ->
    (forall j, (j < k)%nat ->
       elapsed_seconds (clock w + rounds_ms j poll_interval (poll_script w) (polls w))
                       start_time < timeout_seconds) ->
    wait_loop (k + fuel) vs_id batch_id timeout_seconds poll_interval start_time last w
    = wait_loop fuel vs_id batch_id timeout_seconds poll_interval start_time
        (last_read k w last) (after_rounds k vs_id batch_id poll_interval w).
Proof.
  induction k as [|k IH]; intros fuel last w Hpass Hearly; [done|].
  destruct (Hpass O) as (Hpi & Hlat & b & Hb & Hnot); [lia|].
  rewrite Nat.add_0_r in Hb, Hlat.
  pose proof (Hearly O ltac:(lia)) as H0. simpl in H0. rewrite Z.add_0_r in H0.
  cbn [Nat.add wait_loop after_rounds].
  rewrite (wait_pass_round _ _ _ _ _ _ _ b) by done.
  rewrite IH.
  - f_equal. destruct k as [|k]; simpl.
    + by rewrite Nat.add_0_r, Hb.
    + by replace (polls w + 1 + 0 + k)%nat with (polls w + S k)%nat by lia.
  - intros j Hj. destruct (Hpass (S j)) as (? & ? & b' & Hb' & Hnot'); [lia|]. simpl.
    replace (polls w + 1 + 0 + j)%nat with (polls w + S j)%nat by lia.
    split; [done|]. split; [done|]. by exists b'.
  - intros j Hj. specialize (Hearly (S j) ltac:(lia)). simpl in *.
    replace (polls w + 1 + 0)%nat with (S (polls w)) by lia.
    replace (clock w + latency (poll_script w (polls w)) + 1000 * poll_interval
             + rounds_ms j poll_interval (poll_script w) (S (polls w)))
      with (clock w + (latency (poll_script w (polls w)) + 1000 * poll_interval
                       + rounds_ms j poll_interval (poll_script w) (S (polls w))))
      by lia.
    done.
Qed.

(** From the call of [wait_for_batch] to the pass that follows [k] rounds
    which go through and take less than the timeout together. *)
Lemma wait_for_batch_rounds (fuel k : nat) (vs_id batch_id : string)
    (timeout_seconds poll_interval : Z) (w : world) :
  rounds_pass k poll_interval w ->
  rounds_ms k poll_interval (poll_script w) (polls w) < 1000 * timeout_seconds ->
  let w' := after_rounds k vs_id batch_id poll_interval w in
  wait_for_batch (k + fuel) vs_id batch_id timeout_seconds poll_interval w
  = wait_loop fuel vs_id batch_id timeout_seconds poll_interval (clock w)
      (last_read k w None) w'
  /\ elapsed_seconds (clock w') (clock w) < timeout_seconds
  /\ poll_script w' (polls w') = poll_script w (polls w + k).
Proof.
  intros Hpass Hms w'. split; [|split].
  - unfold wait_for_batch, time_time. apply wait_loop_rounds; [done|].
    intros j Hj. apply (early_rounds k); [done | done | lia].
  - unfold w'. rewrite clock_after_rounds. by apply (early_rounds k).
  - unfold w'. by rewrite poll_script_after_rounds, polls_after_rounds.
Qed.

(** A terminal status is returned by the pass that reads it, with no
    sleep after the read. *)
Lemma wait_for_batch_terminal_read (fuel k : nat) (vs_id batch_id : string)
    (timeout_seconds poll_interval : Z) (w : world) (b : batch) :
  rounds_pass k poll_interval w ->
  rounds_ms k poll_interval (poll_script w) (polls w) < 1000 * timeout_seconds ->
  outcome (poll_script w (polls w + k)) = Ok b ->
  terminal (status b) ->
  wait_for_batch (S (k + fuel)) vs_id batch_id timeout_seconds poll_interval w
  = Some (Ok (status b),
          after_read vs_id batch_id (after_rounds k vs_id batch_id poll_interval w)).
Proof.
  intros Hpass Hms Hb Hterm.
  destruct (wait_for_batch_rounds (S fuel) k vs_id batch_id timeout_seconds poll_interval
              w Hpass Hms) as (Hrun & Hearly & Hscript).
  replace (S (k + fuel)) with (k + S fuel)%nat by lia. rewrite Hrun.
  rewrite <- Hscript in Hb.
  by rewrite (wait_loop_terminal _ _ _ _ _ _ _ _ b Hearly Hb Hterm).
Qed.

(** C5: whenever [wait_for_batch] gets to read a batch whose status is
    "completed" (after any number [k] of rounds that found the batch
    not yet terminal and took less than the timeout), it returns
    "completed" right after that read; the counts of the batch (among
    them [failed]) play no part. *)
Theorem wait_completed_whatever_counts (fuel k : nat) (vs_id batch_id : string)
    (timeout_seconds poll_interval : Z) (w : world) (batch_id' : string)
    (c : option file_counts) :
  rounds_pass k poll_interval w ->
  rounds_ms k poll_interval (poll_script w) (polls w) < 1000 * timeout_seconds ->
  outcome (poll_script w (polls w + k)) = Ok (Batch batch_id' "completed" c) ->
  wait_for_batch (S (k + fuel)) vs_id batch_id timeout_seconds poll_interval w
  = Some (Ok "completed",
          after_read vs_id batch_id (after_rounds k vs_id batch_id poll_interval w)).
Proof.
  intros Hpass Hms Hb.
  apply (wait_for_batch_terminal_read fuel k vs_id batch_id timeout_seconds poll_interval
           w _ Hpass Hms Hb).
  by left.
Qed.

Lemma wait_completed_whatever_counts_witness :
  let script := fun k =>
    Poll 200 (Ok (if (k <? 1)%nat
                  then Batch "vsfb_1" "in_progress" (Some (FileCounts 0 2 0 0 2))
                  else Batch "vsfb_1" "completed" (Some (FileCounts 1 0 1 0 2)))) in
  let w := world_with [] script in
  wait_for_batch 2 "idx1" "vsfb_1" 300 5 w
  = Some (Ok "completed", after_read "idx1" "vsfb_1" (after_round "idx1" "vsfb_1" 5 w))
  /\ calls (after_read "idx1" "vsfb_1" (after_round "idx1" "vsfb_1" 5 w))
     = [FileBatchesRetrieve "idx1" "vsfb_1"; Sleep 5; FileBatchesRetrieve "idx1" "vsfb_1"].
Proof.
  intros script w. split; [|reflexivity].
  apply (wait_completed_whatever_counts 0 1 "idx1" "vsfb_1" 300 5 w
           "vsfb_1" (Some (FileCounts 1 0 1 0 2))).
  - intros j Hj. assert (j = O) as -> by lia.
    split; [lia|]. split; [vm_compute; discriminate|].
    eexists. split; [reflexivity|].
    intros [H | [H | H]]; discriminate H.
  - vm_compute. reflexivity.
  - reflexivity.
Defined.

(** The scenario of the specification: create, then a status read that
    says "completed" with one failed file. *)
Example create_and_wait_partial_failure :
  fst <$> create_and_wait_batch 1 "idx1" ["f1"; "f2"] 300
            (world_with [] (always (Batch "vsfb_1" "completed" (Some (FileCounts 1 0 1 0 2)))))
  = Some (Ok "completed").
Proof. vm_compute. reflexivity. Qed.

(** C10: with [timeout_seconds <= 0] the timeout check fires in the
    first pass, before any status read; building the message reads the
    unbound local [batch], so the call ends in [UnboundLocalError] (a
    [NameError]) and not in [TimeoutError]. *)
Theorem wait_for_batch_unbound_batch (fuel : nat) (vs_id batch_id : string)
    (timeout_seconds poll_interval : Z) (w : world) :
  timeout_seconds <= 0 ->
  wait_for_batch (S fuel) vs_id batch_id timeout_seconds poll_interval w =
  Some (Raise (UnboundLocalError "batch"), w).
Proof.
  intros Ht. unfold wait_for_batch, time_time. simpl.
  unfold wait_pass, time_time, mbind, M_bind, elapsed_seconds.
  rewrite Z.sub_diag. change (0 ÷ 1000) with 0.
  by destruct (Z.leb_spec timeout_seconds 0); [|lia].
Qed.

Lemma wait_for_batch_unbound_batch_witness :
  let w := world_with [] (always (in_progress_batch None)) in
  wait_for_batch 1 "vs_1" "vsfb_1" 0 5 w = Some (Raise (UnboundLocalError "batch"), w).
Proof.
  intros w. apply (wait_for_batch_unbound_batch 0 "vs_1" "vsfb_1" 0 5 w). lia.
Defined.

(** ** Timeout *)

(** The round during which the clock passes [T]. *)
Lemma first_round_past (poll_interval : Z) (script : nat -> poll_outcome) (from : nat)
    (T : Z) (n : nat) :
  0 < T <= rounds_ms n poll_interval script from ->
  exists k, (k < n)%nat
            /\ rounds_ms k poll_interval script from < T
               <= rounds_ms (S k) poll_interval script from.
Proof.
  induction n as [|n IH]; intros HT; [simpl in HT; lia|].
  destruct (Z.le_gt_cases T (rounds_ms n poll_interval script from)) as [Hle|Hgt].
  - destruct IH as (k & Hk & Hbounds); [lia|]. exists k. split; [lia | done].
  - exists n. split; [lia|]. lia.
Qed.

(** Rounds that each take at least a millisecond reach any deadline:
    the case of a [poll_interval] of one second or more, and the case of
    status reads that take time. *)
Lemma rounds_ms_grows (poll_interval : Z) (script : nat -> poll_outcome) (n : nat) :
  forall from,
    (forall i, 1 <= latency (script (from + i)%nat) + 1000 * poll_interval) ->
    Z.of_nat n <= rounds_ms n poll_interval script from.
Proof.
  induction n as [|n IH]; intros from Hpos; simpl rounds_ms; [lia|].
  pose proof (Hpos O) as H0. rewrite Nat.add_0_r in H0.
  assert (Z.of_nat n <= rounds_ms n poll_interval script (S from)); [|lia].
  apply IH. intros i. specialize (Hpos (S i)).
  by replace (S from + i)%nat with (from + S i)%nat by lia.
Qed.

Lemma rounds_reach_timeout (timeout_seconds poll_interval : Z) (w : world) :
  never_terminal w ->
  1 <= poll_interval
  \/ (0 <= poll_interval /\ forall k, 1 <= latency (poll_script w (polls w + k)%nat)) ->
  1000 * timeout_seconds
  <= rounds_ms (Z.to_nat (1000 * timeout_seconds)) poll_interval (poll_script w) (polls w).
Proof.
  intros Hnt Htime.
  pose proof (rounds_ms_grows poll_interval (poll_script w)
                (Z.to_nat (1000 * timeout_seconds)) (polls w)) as Hgrow.
  assert (Z.of_nat (Z.to_nat (1000 * timeout_seconds))
          <= rounds_ms (Z.to_nat (1000 * timeout_seconds)) poll_interval
               (poll_script w) (polls w)); [|lia].
  apply Hgrow. intros i.
  destruct (Hnt (polls w + i)%nat) as (_ & _ & _ & Hlat); [lia|].
  destruct Htime as [Hpi | [Hpi Hreads]]; [lia|]. specialize (Hreads i). lia.
Qed.

(** A pass that begins at or after the deadline raises [TimeoutError]
    with the status last read. *)
Lemma wait_loop_due (fuel : nat) (vs_id batch_id : string)
    (timeout_seconds poll_interval start_time : Z) (b : batch) (w : world) :
  timeout_seconds <= elapsed_seconds (clock w) start_time ->
  wait_loop (S fuel) vs_id batch_id timeout_seconds poll_interval start_time (Some b) w
  = Some (Raise (TimeoutError (timeout_message timeout_seconds (status b))), w).
Proof.
  intros Hdue. simpl. unfold wait_pass, time_time, mbind, M_bind.
  by destruct (Z.leb_spec timeout_seconds (elapsed_seconds (clock w) start_time)); [|lia].
Qed.

(** C6, as amended: over a batch that never becomes terminal, with
    [timeout_seconds >= 1] and a [poll_interval] that is not negative,
    once the time elapsed since the call reaches the timeout (the reads
    and sleeps of [n] rounds add up to it) [wait_for_batch] leaves the
    loop by raising [TimeoutError]: it does so at the first pass that
    begins [timeout_seconds] or more after the call, after at most [n]
    status reads, and the message names the timeout and the status of
    the last read and nothing else (no counts).  A terminal status is
    returned by the very pass that reads it, with no sleep after the
    read. *)
Theorem wait_for_batch_times_out (vs_id batch_id : string)
    (timeout_seconds poll_interval : Z) (w : world) (n : nat) :
  1 <= timeout_seconds ->
  0 <= poll_interval ->
  never_terminal w ->
  1000 * timeout_seconds <= rounds_ms n poll_interval (poll_script w) (polls w) ->
  (exists (k : nat) (b : batch) (w' : world),
      w' = after_rounds (S k) vs_id batch_id poll_interval w
      /\ (S k <= n)%nat
      /\ outcome (poll_script w (polls w + k)) = Ok b
      /\ clock (after_rounds k vs_id batch_id poll_interval w) - clock w
         < 1000 * timeout_seconds <= clock w' - clock w
      /\ forall fuel, (S k < fuel)%nat ->
           wait_for_batch fuel vs_id batch_id timeout_seconds poll_interval w
           = Some (Raise (TimeoutError (timeout_message timeout_seconds (status b))), w'))
  /\ (forall fuel k w1 b1,
        rounds_pass k poll_interval w1 ->
        rounds_ms k poll_interval (poll_script w1) (polls w1) < 1000 * timeout_seconds ->
        outcome (poll_script w1 (polls w1 + k)) = Ok b1 ->
        terminal (status b1) ->
        wait_for_batch (S (k + fuel)) vs_id batch_id timeout_seconds poll_interval w1
        = Some (Ok (status b1),
                after_read vs_id batch_id
                  (after_rounds k vs_id batch_id poll_interval w1))).
Proof.
  intros Ht Hpi Hnt Hn. split; [|intros; by apply wait_for_batch_terminal_read].
  destruct (first_round_past poll_interval (poll_script w) (polls w)
              (1000 * timeout_seconds) n) as (k & Hk & Hlt & Hge); [lia|].
  destruct (Hnt (polls w + k)%nat) as (b & Hb & _ & _); [lia|].
  exists k, b, (after_rounds (S k) vs_id batch_id poll_interval w).
  split; [done|]. split; [lia|]. split; [done|]. split.
  - rewrite !clock_after_rounds. lia.
  - intros fuel Hfuel.
    replace fuel with (S k + S (fuel - S k - 1))%nat by lia.
    unfold wait_for_batch, time_time.
    rewrite wait_loop_rounds.
    + unfold last_read. rewrite Hb. apply wait_loop_due.
      rewrite clock_after_rounds, elapsed_after_ms by lia.
      apply Z.div_le_lower_bound; lia.
    + by apply never_terminal_rounds_pass.
    + intros j Hj. apply (early_rounds k); [|done|lia].
      by apply never_terminal_rounds_pass.
Qed.

Lemma wait_for_batch_times_out_witness :
  let w := world_with [] (always (in_progress_batch (Some (FileCounts 1 1 0 0 2)))) in
  fst <$> wait_for_batch 6 "vs_1" "vsfb_1" 1 0 w =
  Some (Raise (TimeoutError ("Batch no complet" +:+ chr 243 +:+ " en 1s. " +:+
                             chr 218 +:+ "ltimo estado: in_progress"))).
Proof.
  intros w.
  destruct (wait_for_batch_times_out "vs_1" "vsfb_1" 1 0 w 5)
    as [(k & b & w' & _ & Hk & Hb & _ & Hrun) _].
  - lia.
  - lia.
  - intros k _. exists (in_progress_batch (Some (FileCounts 1 1 0 0 2))).
    split; [reflexivity|]. split; [|vm_compute; discriminate].
    intros [H | [H | H]]; discriminate H.
  - vm_compute. discriminate.
  - rewrite (Hrun 6%nat) by lia.
    injection Hb as <-. reflexivity.
Defined.

(** C6, as stated, fails in what the error carries: two runs that
    differ only in the counts the status reads report raise the same
    error, so the counts cannot be read off it.  Nor does every wait over
    a batch that never becomes terminal end in a timeout error: with
    [timeout_seconds = 0] it ends in [UnboundLocalError], and with a
    negative [poll_interval] in the [ValueError] of [time.sleep]. *)
Lemma wait_for_batch_timeout_counterexample :
  let w := world_with [] (always (in_progress_batch (Some (FileCounts 1 1 0 0 2)))) in
  ~ timeout_error_carries_counts 4 "vs_1" "vsfb_1" 10 5
      (fun c => world_with [] (always (in_progress_batch c)))
  /\ fst <$> wait_for_batch 4 "vs_1" "vsfb_1" 0 5 w
     = Some (Raise (UnboundLocalError "batch"))
  /\ fst <$> wait_for_batch 4 "vs_1" "vsfb_1" 10 (-1) w
     = Some (Raise (ValueError "sleep length must be non-negative")).
Proof.
  intros w. split; [|split; vm_compute; reflexivity].
  intros [counts_of Hc].
  set (c1 := Some (FileCounts 1 1 0 0 2)).
  set (c2 := Some (FileCounts 0 1 1 0 2)).
  set (e := TimeoutError ("Batch no complet" +:+ chr 243 +:+ " en 10s. " +:+
                          chr 218 +:+ "ltimo estado: in_progress")).
  assert (H1 : exists w', wait_for_batch 4 "vs_1" "vsfb_1" 10 5
                 (world_with [] (always (in_progress_batch c1))) = Some (Raise e, w'))
    by (eexists; vm_compute; reflexivity).
  assert (H2 : exists w', wait_for_batch 4 "vs_1" "vsfb_1" 10 5
                 (world_with [] (always (in_progress_batch c2))) = Some (Raise e, w'))
    by (eexists; vm_compute; reflexivity).
  destruct H1 as [w1 H1], H2 as [w2 H2].
  apply Hc in H1. apply Hc in H2. rewrite H1 in H2. discriminate H2.
Qed.

End BatchManagerFacts.

(* ===================================================================== *)
(** * Properties of the answer operations *)
(* ===================================================================== *)

Module AnswerFacts.
Import VectorSearch Reading Samples.

(** ** Steps that request no chat completion *)

Lemma quiet_step_refl (w : world) : quiet_step w w.
Proof. split; [done|]. exists []. by rewrite app_nil_r. Qed.

Lemma quiet_step_trans (w1 w2 w3 : world) :
  quiet_step w1 w2 -> quiet_step w2 w3 -> quiet_step w1 w3.
Proof.
  intros [Hf1 (x1 & Hx1 & Hq1)] [Hf2 (x2 & Hx2 & Hq2)]. split; [congruence|].
  exists (x1 ++ x2). split; [by rewrite Hx2, Hx1, app_assoc|].
  by apply Forall_app.
Qed.

Lemma quiet_step_record (c : call) (w : world) :
  is_chat_call c = false -> quiet_step w (record c 0 0 w).
Proof. intros Hc. split; [done|]. exists [c]. split; [done|]. by constructor. Qed.

Lemma quiet_step_chat_calls (w w' : world) :
  quiet_step w w' ->
  List.filter is_chat_call (calls w') = List.filter is_chat_call (calls w).
Proof.
  intros [_ (extra & -> & Hq)]. rewrite List.filter_app.
  replace (List.filter is_chat_call extra) with (@nil call); [by rewrite app_nil_r|].
  induction Hq as [|c extra Hc _ IH]; simpl; [done|]. by rewrite Hc.
Qed.

(** ** The loop of the /api/query handler *)

Lemma sources_from_weaken (lookup : string -> result string) (seen : list hit) (h : hit)
    (srcs : list string) :
  sources_from lookup seen srcs -> sources_from lookup (seen ++ [h]) srcs.
Proof.
  intros (Hnd & Hlen & Hfrom). split; [done|]. split.
  - rewrite length_app. lia.
  - intros s Hs. destruct (Hfrom s Hs) as (h' & fid & Hin & Hid & Hname).
    exists h', fid. split; [|done]. apply elem_of_app. by left.
Qed.

Lemma visit_hit_spec (i : nat) (h : hit) (g : Api.gathered) (w w' : world)
    (r : result Api.gathered) (seen : list hit) :
  Api.visit_hit i h g w = (r, w') ->
  quiet_step w w'
  /\ forall g', r = Ok g' ->
       sources_from (files_reply w) seen (Api.found g) ->
       sources_from (files_reply w) (seen ++ [h]) (Api.found g').
Proof.
  unfold Api.visit_hit, lift, attempt, files_retrieve, mbind, M_bind, mret, M_ret.
  destruct (Api.extract_text_from_hit h) as [txt|e];
    [|intros [= <- <-]; split; [apply quiet_step_refl | done]].
  destruct (str_truthy txt);
    [|intros [= <- <-]; split;
      [apply quiet_step_refl | intros g' [= <-]; apply sources_from_weaken]].
  destruct (hit_file_id h) as [fid|] eqn:Hfid;
    [|intros [= <- <-]; split;
      [apply quiet_step_refl | intros g' [= <-]; apply sources_from_weaken]].
  destruct (str_truthy fid && bool_decide (Api.file_id_to_name g !! fid = None));
    [|intros [= <- <-]; split;
      [apply quiet_step_refl | intros g' [= <-]; apply sources_from_weaken]].
  destruct (files_reply w fid) as [filename|e] eqn:Hname; simpl; intros [= <- <-];
    (split; [by apply quiet_step_record|]); intros g' [= <-]; simpl;
    [|apply sources_from_weaken].
  destruct (bool_decide_reflect (filename ∈ Api.found g)) as [Hin|Hnew];
    [apply sources_from_weaken|].
  intros (Hnd & Hlen & Hfrom). split; [|split].
  - apply NoDup_app. split; [done|]. split; [|apply NoDup_singleton].
    intros s Hs Hs'. apply list_elem_of_singleton in Hs'. by subst.
  - rewrite !length_app. simpl. lia.
  - intros s Hs. apply elem_of_app in Hs as [Hs|Hs].
    + destruct (Hfrom s Hs) as (h' & fid' & Hin & Hid & Hn).
      exists h', fid'. split; [|done]. apply elem_of_app. by left.
    + apply list_elem_of_singleton in Hs as ->.
      exists h, fid. split; [|done]. apply elem_of_app. right. by apply list_elem_of_singleton.
Qed.

Lemma visit_hits_spec (hits : list hit) :
  forall (i : nat) (g : Api.gathered) (w w' : world) (r : result Api.gathered)
         (seen : list hit),
    Api.visit_hits i hits g w = (r, w') ->
    quiet_step w w'
    /\ forall g', r = Ok g' ->
         sources_from (files_reply w) seen (Api.found g) ->
         sources_from (files_reply w) (seen ++ hits) (Api.found g').
Proof.
  induction hits as [|h hits IH]; intros i g w w' r seen; simpl.
  - unfold mret, M_ret. intros [= <- <-]. split; [apply quiet_step_refl|].
    intros g' [= <-]. by rewrite app_nil_r.
  - unfold mbind, M_bind.
    destruct (Api.visit_hit i h g w) as [[g1|e] w1] eqn:Hvisit.
    + destruct (visit_hit_spec i h g w w1 (Ok g1) seen Hvisit) as [Hq1 Hs1].
      intros Hrest.
      destruct (IH (S i) g1 w1 w' r (seen ++ [h]) Hrest) as [Hq2 Hs2].
      split; [by eapply quiet_step_trans|].
      intros g' Hr Hinv. rewrite (cons_middle h), app_assoc.
      destruct Hq1 as [Hf1 _]. rewrite <- Hf1. apply Hs2; [done|].
      rewrite Hf1. by apply Hs1.
    + intros [= <- <-].
      destruct (visit_hit_spec i h g w w1 (Raise e) seen Hvisit) as [Hq1 _].
      split; [done|]. done.
Qed.


Lemma retrieve_quiet (vs_id query : string) (w w' : world)
    (r : result (string * list string)) :
  Api.retrieve vs_id query w = (r, w') -> quiet_step w w'.
Proof.
  unfold Api.retrieve, vector_store_search, mbind, M_bind, mret, M_ret.
  set (w0 := record (VectorStoreSearch vs_id query 20) 0 0 w).
  assert (Hq0 : quiet_step w w0) by by apply quiet_step_record.
  destruct (search_reply w vs_id query 20) as [sr|e]; [|by intros [= <- <-]].
  destruct (Api.visit_hits 1 (take 10 (get_data sr)) _ w0) as [[g|e] w1] eqn:Hvisit;
    intros [= <- <-];
    destruct (visit_hits_spec _ _ _ _ _ _ [] Hvisit) as [Hq _];
    by eapply quiet_step_trans.
Qed.

(** ** First-seen order *)







(** ** Sources *)







(** ** Empty context *)

(** C1, as amended.  When its retrieval phase yields an empty context, the
    /api/query handler returns the fixed answer with no source and an
    empty context, and requests no chat completion.
    [RAGAssistant.answer] has no such short circuit: on an empty context
    it leaves the knowledge-base message out, requests the completion all
    the same, and returns the model's reply with one source per hit. *)
Theorem empty_context_answers :
  (forall state request vs_id w srcs w1,
      Api.has_client state = true ->
      Api.or_else (Api.req_vector_store_id request) (Api.state_vector_store_id state)
        = Some vs_id ->
      str_truthy vs_id = true ->
      Api.retrieve vs_id (Api.req_query request) w = (Ok (EmptyString, srcs), w1) ->
      Api.query_rag state request w
      = (Ok {| Api.success := true;
               Api.answer := Api.no_context_answer;
               Api.sources := [];
               Api.context := EmptyString |}, w1)
      /\ List.filter is_chat_call (calls w1) = List.filter is_chat_call (calls w))
  /\ (forall self query extra t w results w1,
        RagAssistant.search self query w = (Ok (EmptyString, results), w1) ->
        let messages :=
          [Message "system" (RagAssistant.system_prompt self)]
          ++ match extra with
             | Some text =>
                 if str_truthy text
                 then [Message "system" ("ADDITIONAL CONTEXT:" +:+ LF +:+ text)]
                 else []
             | None => []
             end
          ++ [Message "user" query] in
        RagAssistant.answer self query extra t w
        = (reply ← chat_reply w1 (RagAssistant.model self) messages (Temperature t);
           Ok {| RagAssistant.answer_text := reply;
                 RagAssistant.context := EmptyString;
                 RagAssistant.sources := RagAssistant.source_of <$> get_data results;
                 RagAssistant.query := query;
                 RagAssistant.response_model := RagAssistant.model self;
                 RagAssistant.search_results := results |},
           record (ChatCompletionsCreate (RagAssistant.model self) messages (Temperature t))
                  0 0 w1)).
Proof.
  split.
  - intros state request vs_id w srcs w1 Hclient Hvs Htruthy Hret. split.
    + unfold Api.query_rag, catch. rewrite Hclient, Hvs, Htruthy. simpl.
      unfold Api.query_body, mbind, M_bind. by rewrite Hret.
    + apply quiet_step_chat_calls. by eapply retrieve_quiet.
  - intros self query extra t w results w1 Hsearch messages.
    unfold RagAssistant.answer, mbind, M_bind at 1. rewrite Hsearch.
    unfold chat_completions_create, mret, M_ret, mbind, M_bind, result_bind.
    change (RagAssistant.answer_messages self EmptyString query extra) with messages.
    by destruct (chat_reply w1 _ messages _).
Qed.

Lemma empty_context_answers_witness :
  let w := world_with [] (always (in_progress_batch None)) in
  let w1 := record (VectorStoreSearch "vs_1" "shipping time" 20) 0 0 w in
  Api.query_rag app_state request w
  = (Ok {| Api.success := true;
           Api.answer := Api.no_context_answer;
           Api.sources := [];
           Api.context := EmptyString |}, w1)
  /\ List.filter is_chat_call (calls w1) = List.filter is_chat_call (calls w).
Proof.
  intros w w1.
  apply (proj1 empty_context_answers app_state request "vs_1" w [] w1).
  - reflexivity.
  - reflexivity.
  - reflexivity.
  - vm_compute. reflexivity.
Defined.

(** C1, as stated, fails for [RAGAssistant.answer]: over a hit without
    text the context is empty, yet the chat completion is requested, the
    answer is the model's reply and the hit's filename is reported. *)
Lemma answer_empty_context_counterexample :
  let w := world_with [hit_no_text] (always (in_progress_batch None)) in
  (exists results w1,
      RagAssistant.search assistant "shipping time" w = (Ok (EmptyString, results), w1))
  /\ (exists response w2,
        RagAssistant.answer assistant "shipping time" None temperature_0_7 w
          = (Ok response, w2)
        /\ RagAssistant.answer_text response = "model reply"
        /\ RagAssistant.sources response = ["d.md"]
        /\ calls w2 =
           [VectorStoreSearch "vs_1" "shipping time" 5;
            ChatCompletionsCreate "gpt-4.1"
              [Message "system" "Answer from the context.";
               Message "user" "shipping time"]
              (Temperature temperature_0_7)])
  /\ ~ answer_short_circuits assistant "shipping time" None temperature_0_7 w.
Proof.
  intros w.
  assert (Hsearch : exists results w1,
             RagAssistant.search assistant "shipping time" w
             = (Ok (EmptyString, results), w1))
    by (eexists _, _; vm_compute; reflexivity).
  split; [exact Hsearch|]. split.
  - eexists _, _. split; [vm_compute; reflexivity|]. repeat split; reflexivity.
  - intros Hshort. destruct Hsearch as (results & w1 & Hsearch).
    destruct (Hshort results w1 Hsearch) as (response & w2 & Hrun & Hsrc & _).
    vm_compute in Hrun. injection Hrun as <- _. discriminate Hsrc.
Qed.

End AnswerFacts.

(* ===================================================================== *)
(** * Further properties: text extraction and context assembly *)
(* ===================================================================== *)

Module ExtractionMore.
Import VectorSearch Reading Notions Samples PyFacts.

(** ** Trimming *)

Lemma lstrip_first (s : string) (c : ascii) :
  first_char (lstrip s) = Some c -> is_space c = false.
Proof.
  induction s as [|a s IH]; simpl; [done|].
  destruct (is_space a) eqn:Ha; [done|]. simpl. by intros [= <-].
Qed.

Lemma rstrip_first (s : string) (c : ascii) :
  first_char (rstrip s) = Some c -> first_char s = Some c.
Proof.
  destruct s as [|a s]; simpl; [done|].
  destruct (rstrip s); [destruct (is_space a)|]; simpl; done.
Qed.

Lemma rstrip_last (s : string) (c : ascii) :
  last_char (rstrip s) = Some c -> is_space c = false.
Proof.
  induction s as [|a s IH]; simpl; [done|].
  destruct (rstrip s) as [|b r] eqn:Hr.
  - destruct (is_space a) eqn:Ha; simpl; [done|]. by intros [= <-].
  - simpl. simpl in IH. exact IH.
Qed.

Lemma strip_trimmed (s : string) : trimmed (strip s).
Proof.
  split; intros c Hc.
  - apply (lstrip_first s). by apply rstrip_first.
  - by apply (rstrip_last (lstrip s)).
Qed.

(** X1: the text either extractor returns for a hit has no white space
    at its beginning or at its end. *)
Theorem extracted_text_is_trimmed (h : hit) (t : string) :
  extract_text_from_hit h = Ok t \/ Api.extract_text_from_hit h = Ok t ->
  trimmed t.
Proof.
  intros [Hv | Ha].
  - unfold extract_text_from_hit in Hv.
    destruct (iterate _) as [parts|e]; [|done]. simpl in Hv.
    destruct (collect_parts [] parts) as [texts|e]; [|done]. simpl in Hv.
    destruct (join_items LF texts) as [s|e]; [|done]. simpl in Hv.
    injection Hv as <-. apply strip_trimmed.
  - unfold Api.extract_text_from_hit in Ha.
    destruct (iterate _) as [parts|e]; [|done]. simpl in Ha.
    injection Ha as <-. apply strip_trimmed.
Qed.

Lemma extracted_text_is_trimmed_witness :
  trimmed "Ship in 3 days".
Proof.
  apply (extracted_text_is_trimmed hit_direct). left. vm_compute. reflexivity.
Defined.

(** ** Empty context *)

Lemma snippet_nonempty (inc : bool) (i : nat) (h : hit) (t s : string) :
  snippet inc i h t = Ok s -> s <> EmptyString.
Proof.
  unfold snippet. destruct inc.
  - destruct (format_2f _) as [sc|e]; simpl; [|done]. by intros [= <-].
  - simpl. by intros [= <-].
Qed.

Lemma join_nonempty (sep : string) (l : list string) :
  l <> [] -> Forall (fun s => s <> EmptyString) l -> join sep l <> EmptyString.
Proof.
  destruct l as [|x l]; [done|]. intros _ Hall.
  apply Forall_cons in Hall as [Hx _].
  destruct x as [|c x]; [done|]. simpl. by destruct l.
Qed.

Lemma collect_snippets_shape (inc : bool) (hits : list hit) :
  forall i acc snippets,
    collect_snippets inc i hits acc = Ok snippets ->
    exists new,
      snippets = acc ++ new
      /\ Forall (fun s => s <> EmptyString) new
      /\ (new = [] <-> Forall (fun h => extract_text_from_hit h = Ok EmptyString) hits).
Proof.
  induction hits as [|h hits IH]; intros i acc snippets; simpl.
  - intros [= <-]. exists []. rewrite app_nil_r. by split; [|split].
  - destruct (extract_text_from_hit h) as [t|e] eqn:Ht; simpl; [|done].
    destruct t as [|c t]; simpl.
    + intros Hrest. destruct (IH _ _ _ Hrest) as (new & -> & Hne & Hiff).
      exists new. split; [done|]. split; [done|].
      rewrite Hiff. split; [by constructor | by intros [_ ?]%Forall_cons].
    + destruct (snippet inc i h (String c t)) as [s|e] eqn:Hs; simpl; [|done].
      intros Hrest. destruct (IH _ _ _ Hrest) as (new & -> & Hne & _).
      exists (s :: new). split; [by rewrite <- app_assoc|].
      split; [constructor; [exact (snippet_nonempty _ _ _ _ _ Hs) | done]|].
      split; [done|]. intros Hall. apply Forall_cons in Hall as [Hh _]. congruence.
Qed.

(** X2: for [max_chars >= 0], the context [extract_context] returns is
    empty exactly when no hit has text (the hit list being empty
    included). *)
Theorem extract_context_empty_iff (sr : search_results) (max_chars : Z) (inc : bool)
    (sep ctx : string) :
  0 <= max_chars ->
  extract_context sr max_chars inc sep = Ok ctx ->
  (ctx = EmptyString
   <-> Forall (fun h => extract_text_from_hit h = Ok EmptyString) (get_data sr)).
Proof.
  intros Hmax. unfold extract_context.
  destruct (collect_snippets inc 1 (get_data sr) []) as [snippets|e] eqn:Hcs; simpl; [|done].
  destruct (collect_snippets_shape _ _ _ _ _ Hcs) as (new & -> & Hne & Hiff).
  simpl. rewrite <- Hiff. clear Hiff Hcs.
  destruct new as [|s new].
  - simpl. destruct (Z.gtb_spec (len EmptyString) max_chars) as [Hlt|_];
      [unfold len in Hlt; simpl in Hlt; lia|].
    by intros [= <-].
  - assert (Hjoin : join sep (s :: new) <> EmptyString) by by apply join_nonempty.
    destruct (len (join sep (s :: new)) >? max_chars); intros [= <-].
    + split; [|done]. intros Hempty.
      apply (f_equal String.length) in Hempty. rewrite length_append in Hempty.
      vm_compute (String.length truncation_marker) in Hempty. simpl in Hempty. lia.
    + split; [by intros ? | done].
Qed.

Lemma extract_context_empty_iff_witness :
  EmptyString = EmptyString
  <-> Forall (fun h => extract_text_from_hit h = Ok EmptyString)
             (get_data (SearchResults (Some [hit_no_text; hit_typed]))).
Proof.
  apply (extract_context_empty_iff _ 8000 true default_separator).
  - lia.
  - vm_compute. reflexivity.
Defined.

(** ** When the extractors fail *)

(** X3: the extractor of the /api/query handler raises only when the
    content of the hit is a number or [True], on which the [for] loop
    cannot iterate; for a content that is absent, null, a list, a
    dictionary or a string it returns. *)
Theorem api_extract_text_failure (h : hit) (e : exn) :
  Api.extract_text_from_hit h = Raise e
  <-> exists v,
        hit_content h = Some v
        /\ truthy v = true
        /\ match v with
           | JBool _ | JInt _ | JFloat _ => True
           | _ => False
           end
        /\ e = TypeError ("'" +:+ type_name v +:+ "' object is not iterable").
Proof.
  unfold Api.extract_text_from_hit. split.
  - destruct (hit_content h) as [v|]; simpl; [|done].
    destruct (truthy v) eqn:Htruthy; [|done].
    destruct v; simpl; try done; intros [= <-]; eexists; by repeat split.
  - intros (v & -> & Htruthy & Hscalar & ->). simpl. rewrite Htruthy.
    by destruct v.
Qed.

Lemma str_items_strings (l : list string) (i : nat) :
  str_items i (JStr <$> l) = Ok l.
Proof.
  revert i. induction l as [|s l IH]; intros i; simpl; [done|].
  by rewrite IH.
Qed.

(** X4: when the ["text"] entries of the dictionary parts of a hit are all
    strings, [extract_text_from_hit] of [vector_search.py] returns them
    joined by newlines and trimmed; parts that are not dictionaries or have
    no ["text"] entry are passed over. *)
Theorem extract_text_of_string_parts (h : hit) (parts : list json) (texts : list string) :
  hit_content h = Some (JList parts) ->
  omap text_entry parts = JStr <$> texts ->
  extract_text_from_hit h = Ok (strip (join LF texts)).
Proof.
  intros Hc Htexts. unfold extract_text_from_hit. rewrite Hc. simpl.
  rewrite VectorSearchFacts.collect_parts_spec. simpl. rewrite Htexts.
  unfold join_items. by rewrite str_items_strings.
Qed.

Lemma extract_text_of_string_parts_witness :
  extract_text_from_hit
    (Hit None None None
         (Some (JList [JStr "stray"; JDict [("text", JStr " first ")];
                       JDict [("type", JStr "text")]; JDict [("text", JStr "second ")]])))
  = Ok (strip (join LF [" first "; "second "])).
Proof.
  apply (extract_text_of_string_parts _
           [JStr "stray"; JDict [("text", JStr " first ")];
            JDict [("type", JStr "text")]; JDict [("text", JStr "second ")]]).
  - reflexivity.
  - reflexivity.
Defined.

(** Witness of [VectorSearchFacts.api_extract_text_shapes] (X5). *)
Lemma api_extract_text_shapes_witness :
  Api.extract_text_from_hit hit_nested =
  Ok (strip (join LF (map strip (List.filter Api.keeps
        (omap part_text
           [JDict [("type", JStr "text"); ("text", JDict [("value", JStr "hello")])]]))))).
Proof.
  apply (VectorSearchFacts.api_extract_text_shapes hit_nested). reflexivity.
Defined.

End ExtractionMore.

(* ===================================================================== *)
(** * Further properties: the batch lifecycle *)
(* ===================================================================== *)

Module BatchMore.
Import BatchManager Reading Notions Samples.

(** The five ways a pass through the loop body can end. *)
Lemma wait_pass_cases (vs_id batch_id : string)
    (timeout_seconds poll_interval start_time : Z) (last : option batch) (w : world) :
  let run := wait_pass vs_id batch_id timeout_seconds poll_interval start_time last w in
  let read := after_read vs_id batch_id w in
  (timeout_seconds <= elapsed_seconds (clock w) start_time
   /\ run.2 = w
   /\ run.1 = match last with
              | None => Raise (UnboundLocalError "batch")
              | Some b => Raise (TimeoutError (timeout_message timeout_seconds (status b)))
              end)
  \/ (elapsed_seconds (clock w) start_time < timeout_seconds
      /\ ((exists e, outcome (poll_script w (polls w)) = Raise e
                     /\ run = (Raise e, read))
          \/ (exists b, outcome (poll_script w (polls w)) = Ok b
                        /\ terminal (status b)
                        /\ run = (Ok (Return (status b)), read))
          \/ (exists b, outcome (poll_script w (polls w)) = Ok b
                        /\ ~ terminal (status b)
                        /\ poll_interval < 0
                        /\ run = (Raise (ValueError "sleep length must be non-negative"),
                                  read))
          \/ (exists b, outcome (poll_script w (polls w)) = Ok b
                        /\ ~ terminal (status b)
                        /\ 0 <= poll_interval
                        /\ run = (Ok (Again b),
                                  record (Sleep poll_interval) (1000 * poll_interval) 0
                                         read)))).
Proof.
  intros run read. subst run read.
  unfold wait_pass, after_read, time_time, get_batch_status, file_batches_retrieve,
    time_sleep, mbind, M_bind, mret, M_ret, raise.
  destruct (Z.leb_spec timeout_seconds (elapsed_seconds (clock w) start_time)) as [Hdue|Hearly].
  { left. split; [done|]. by destruct last. }
  right. split; [done|].
  destruct (outcome (poll_script w (polls w))) as [b|e]; [|left; by exists e].
  right.
  destruct (String.eqb_spec (status b) "completed") as [E|N1].
  { left. exists b. split; [done|]. split; [by left|]. by rewrite E. }
  destruct (String.eqb_spec (status b) "failed") as [E|N2].
  { left. exists b. split; [done|]. split; [by right; left|]. by rewrite E. }
  destruct (String.eqb_spec (status b) "cancelled") as [E|N3].
  { left. exists b. split; [done|]. split; [by right; right|]. by rewrite E. }
  right.
  assert (Hnt : ~ terminal (status b)) by (intros [?|[?|?]]; done).
  destruct (Z.ltb_spec poll_interval 0); [left | right]; by exists b.
Qed.

(** ** What a normal return means *)

Lemma wait_loop_returns (vs_id batch_id : string)
    (timeout_seconds poll_interval start_time : Z) (fuel : nat) :
  forall (last : option batch) (w w' : world) (s : string),
    wait_loop fuel vs_id batch_id timeout_seconds poll_interval start_time last w
      = Some (Ok s, w') ->
    terminal s
    /\ exists (k : nat) (b : batch),
         outcome (poll_script w (polls w + k)) = Ok b
         /\ status b = s
         /\ (forall j, (j < k)%nat ->
               exists b', outcome (poll_script w (polls w + j)) = Ok b'
                          /\ ~ terminal (status b'))
         /\ polls w' = (polls w + S k)%nat
         /\ calls w' = calls w ++ poll_rounds k vs_id batch_id poll_interval
                               ++ [FileBatchesRetrieve vs_id batch_id].
Proof.
  induction fuel as [|fuel IH]; intros last w w' s; simpl; [done|].
  destruct (wait_pass_cases vs_id batch_id timeout_seconds poll_interval start_time last w)
    as [(_ & Hw & Hr) | (_ & [(e & _ & Hrun) | [(b & Hb & Hterm & Hrun)
       | [(b & _ & _ & _ & Hrun) | (b & Hb & Hnt & _ & Hrun)]]])].
  - destruct (wait_pass _ _ _ _ _ _ _) as [r w0]. simpl in *. subst.
    by destruct last.
  - by rewrite Hrun.
  - rewrite Hrun. intros [= <- <-]. split; [done|].
    exists O, b. rewrite Nat.add_0_r. split; [done|]. split; [done|].
    split; [intros j Hj; lia|]. split; [simpl; lia | done].
  - by rewrite Hrun.
  - rewrite Hrun. intros Hloop.
    destruct (IH _ _ _ _ Hloop)
      as (Hterm & k & b' & Hb' & Hs & Hearlier & Hpolls & Hcalls).
    split; [done|]. exists (S k), b'. simpl in *.
    split; [by replace (polls w + S k)%nat with (polls w + 1 + 0 + k)%nat by lia|].
    split; [done|]. split; [|split; [lia|]].
    + intros [|j] Hj.
      * exists b. by rewrite Nat.add_0_r.
      * destruct (Hearlier j) as (bj & Hbj & Hntj); [lia|].
        exists bj. split; [|done].
        by replace (polls w + S j)%nat with (polls w + 1 + 0 + j)%nat by lia.
    + rewrite Hcalls, <- !app_assoc. done.
Qed.

(** X6: when [wait_for_batch] returns, the value is one of "completed",
    "failed", "cancelled" and is the status reported by its last status
    read, the first read to report a terminal status; before it the call
    made only rounds of one read followed by one sleep of
    [poll_interval]. *)
Theorem wait_for_batch_returns_terminal (fuel : nat) (vs_id batch_id : string)
    (timeout_seconds poll_interval : Z) (w w' : world) (s : string) :
  wait_for_batch fuel vs_id batch_id timeout_seconds poll_interval w = Some (Ok s, w') ->
  terminal s
  /\ exists (k : nat) (b : batch),
       outcome (poll_script w (polls w + k)) = Ok b
       /\ status b = s
       /\ (forall j, (j < k)%nat ->
             exists b', outcome (poll_script w (polls w + j)) = Ok b'
                        /\ ~ terminal (status b'))
       /\ polls w' = (polls w + S k)%nat
       /\ calls w' = calls w ++ poll_rounds k vs_id batch_id poll_interval
                             ++ [FileBatchesRetrieve vs_id batch_id].
Proof.
  unfold wait_for_batch, time_time. apply wait_loop_returns.
Qed.

Lemma wait_for_batch_returns_terminal_witness :
  let w := world_with [] (then_final 2 "failed") in
  exists w',
    wait_for_batch 5 "vs_1" "vsfb_1" 300 5 w = Some (Ok "failed", w')
    /\ terminal "failed"
    /\ exists (k : nat) (b : batch),
         outcome (poll_script w (polls w + k)) = Ok b
         /\ status b = "failed"
         /\ (forall j, (j < k)%nat ->
               exists b', outcome (poll_script w (polls w + j)) = Ok b'
                          /\ ~ terminal (status b'))
         /\ polls w' = (polls w + S k)%nat
         /\ calls w' = calls w ++ poll_rounds k "vs_1" "vsfb_1" 5
                               ++ [FileBatchesRetrieve "vs_1" "vsfb_1"].
Proof.
  intros w. eexists. split; [vm_compute; reflexivity|].
  eapply (wait_for_batch_returns_terminal 5 "vs_1" "vsfb_1" 300 5 w).
  vm_compute. reflexivity.
Defined.

(** ** Failures of the provider and of the sleep *)

Lemma wait_loop_read_fails (fuel : nat) (vs_id batch_id : string)
    (timeout_seconds poll_interval start_time : Z) (last : option batch)
    (w : world) (e : exn) :
  elapsed_seconds (clock w) start_time < timeout_seconds ->
  outcome (poll_script w (polls w)) = Raise e ->
  wait_loop (S fuel) vs_id batch_id timeout_seconds poll_interval start_time last w
  = Some (Raise e, after_read vs_id batch_id w).
Proof.
  intros Hearly Hfail. simpl.
  destruct (wait_pass_cases vs_id batch_id timeout_seconds poll_interval start_time last w)
    as [(Hdue & _) | (_ & [(e' & He' & Hrun) | [(b & Hb & _)
       | [(b & Hb & _) | (b & Hb & _)]]])]; try congruence; try lia.
  rewrite Hrun. congruence.
Qed.

(** X7: a status read that fails ends [wait_for_batch] with the
    provider's own error, whether it is the first read or comes after [k]
    rounds that found the batch not yet terminal: no retry, no sleep and
    no further read follow it. *)
Theorem wait_propagates_read_failure (fuel k : nat) (vs_id batch_id : string)
    (timeout_seconds poll_interval : Z) (w : world) (e : exn) :
  rounds_pass k poll_interval w ->
  rounds_ms k poll_interval (poll_script w) (polls w) < 1000 * timeout_seconds ->
  outcome (poll_script w (polls w + k)) = Raise e ->
  exists w',
    wait_for_batch (S (k + fuel)) vs_id batch_id timeout_seconds poll_interval w
    = Some (Raise e, w')
    /\ w' = after_read vs_id batch_id (after_rounds k vs_id batch_id poll_interval w)
    /\ calls w' = calls w ++ poll_rounds k vs_id batch_id poll_interval
                          ++ [FileBatchesRetrieve vs_id batch_id].
Proof.
  intros Hpass Hms Hfail. eexists. split; [|split; [reflexivity|]].
  - destruct (BatchManagerFacts.wait_for_batch_rounds (S fuel) k vs_id batch_id
                timeout_seconds poll_interval w Hpass Hms) as (Hrun & Hearly & Hscript).
    replace (S (k + fuel)) with (k + S fuel)%nat by lia. rewrite Hrun.
    rewrite <- Hscript in Hfail.
    by rewrite (wait_loop_read_fails _ _ _ _ _ _ _ _ e Hearly Hfail).
  - unfold after_read. simpl.
    by rewrite BatchManagerFacts.calls_after_rounds, <- app_assoc.
Qed.

Lemma wait_propagates_read_failure_witness :
  let script := fun k =>
    if (k <? 1)%nat then Poll 200 (Ok (in_progress_batch None))
    else Poll 50 (Raise (UpstreamError "batch not found")) in
  let w := world_with [] script in
  exists w',
    wait_for_batch 2 "vs_1" "vsfb_1" 300 5 w
    = Some (Raise (UpstreamError "batch not found"), w')
    /\ w' = after_read "vs_1" "vsfb_1" (after_round "vs_1" "vsfb_1" 5 w)
    /\ calls w' = [FileBatchesRetrieve "vs_1" "vsfb_1"; Sleep 5;
                   FileBatchesRetrieve "vs_1" "vsfb_1"].
Proof.
  intros script w.
  apply (wait_propagates_read_failure 0 1 "vs_1" "vsfb_1" 300 5 w
           (UpstreamError "batch not found")).
  - intros j Hj. assert (j = O) as -> by lia.
    split; [lia|]. split; [vm_compute; discriminate|].
    eexists. split; [reflexivity|].
    intros [H | [H | H]]; discriminate H.
  - vm_compute. reflexivity.
  - reflexivity.
Defined.

(** X8: with a negative [poll_interval] and [timeout_seconds >= 1], a
    first read that is not terminal is followed by the [ValueError] of
    [time.sleep]; a first read that is terminal is returned as usual. *)
Theorem wait_negative_poll_interval (fuel : nat) (vs_id batch_id : string)
    (timeout_seconds poll_interval : Z) (w : world) (b : batch) :
  1 <= timeout_seconds ->
  poll_interval < 0 ->
  outcome (poll_script w (polls w)) = Ok b ->
  wait_for_batch (S fuel) vs_id batch_id timeout_seconds poll_interval w
  = Some (if bool_decide (terminal (status b)) then Ok (status b)
          else Raise (ValueError "sleep length must be non-negative"),
          after_read vs_id batch_id w).
Proof.
  intros Ht Hpi Hb. unfold wait_for_batch, time_time. simpl.
  destruct (wait_pass_cases vs_id batch_id timeout_seconds poll_interval (clock w) None w)
    as [(Hdue & _) | (_ & [(e' & He' & Hrun) | [(b' & Hb' & Hterm & Hrun)
       | [(b' & Hb' & Hnt & _ & Hrun) | (b' & _ & _ & Hpos & _)]]])].
  - unfold elapsed_seconds in Hdue. rewrite Z.sub_diag in Hdue.
    change (0 ÷ 1000) with 0 in Hdue. lia.
  - congruence.
  - rewrite Hrun. assert (b' = b) as -> by congruence.
    by rewrite bool_decide_eq_true_2.
  - rewrite Hrun. assert (b' = b) as -> by congruence.
    by rewrite bool_decide_eq_false_2.
  - lia.
Qed.

Lemma wait_negative_poll_interval_witness :
  let w := world_with [] (always (in_progress_batch None)) in
  wait_for_batch 1 "vs_1" "vsfb_1" 300 (-1) w
  = Some (Raise (ValueError "sleep length must be non-negative"),
          after_read "vs_1" "vsfb_1" w).
Proof.
  intros w.
  apply (wait_negative_poll_interval 0 "vs_1" "vsfb_1" 300 (-1) w (in_progress_batch None)).
  - lia.
  - lia.
  - reflexivity.
Defined.

(** ** How late the wait can end *)

Lemma reads_succeed_record (c : call) (dt : Z) (dp : nat) (w : world) :
  reads_succeed w -> reads_succeed (record c dt dp w).
Proof. intros H k Hk. simpl in *. apply H. lia. Qed.

Lemma before_deadline (now start timeout_seconds : Z) :
  start <= now ->
  elapsed_seconds now start < timeout_seconds ->
  now - start < 1000 * timeout_seconds.
Proof.
  intros Hle Hel. rewrite BatchManagerFacts.elapsed_seconds_div in Hel by done.
  pose proof (Z.div_mod (now - start) 1000).
  pose proof (Z.mod_pos_bound (now - start) 1000). lia.
Qed.

Lemma wait_loop_deadline (vs_id batch_id : string)
    (timeout_seconds poll_interval start_time : Z) (fuel : nat) :
  0 <= poll_interval ->
  forall (last : option batch) (w w' : world) (r : result string),
    start_time <= clock w ->
    reads_succeed w ->
    wait_loop fuel vs_id batch_id timeout_seconds poll_interval start_time last w
      = Some (r, w') ->
    (w' = w /\ timeout_seconds <= elapsed_seconds (clock w) start_time)
    \/ exists k : nat,
         polls w' = (polls w + S k)%nat
         /\ clock w' - start_time
            < 1000 * (timeout_seconds + poll_interval)
              + latency (poll_script w (polls w + k)).
Proof.
  intros Hpi. induction fuel as [|fuel IH]; intros last w w' r Hstart Hreads; simpl; [done|].
  destruct (Hreads (polls w)) as [[b0 Hb0] Hlat]; [lia|].
  destruct (wait_pass_cases vs_id batch_id timeout_seconds poll_interval start_time last w)
    as [(Hdue & Hw & Hr) | (Hearly & [(e & He & _) | [(b & Hb & Hterm & Hrun)
       | [(b & _ & _ & Hneg & _) | (b & Hb & _ & _ & Hrun)]]])];
    try congruence; try lia.
  - destruct (wait_pass _ _ _ _ _ _ _) as [r0 w0]. simpl in *. subst.
    destruct last; intros [= <- <-]; by left.
  - rewrite Hrun. intros [= <- <-]. right. exists O.
    pose proof (before_deadline _ _ _ Hstart Hearly).
    rewrite Nat.add_0_r. unfold after_read. simpl. split; lia.
  - rewrite Hrun. intros Hloop.
    pose proof (before_deadline _ _ _ Hstart Hearly) as Hbefore.
    set (w2 := record (Sleep poll_interval) (1000 * poll_interval) 0
                 (after_read vs_id batch_id w)) in *.
    assert (Hstart2 : start_time <= clock w2) by (unfold w2, after_read; simpl; lia).
    assert (Hreads2 : reads_succeed w2) by by do 2 apply reads_succeed_record.
    destruct (IH _ _ _ _ Hstart2 Hreads2 Hloop) as [[-> _] | (k & Hpolls & Hclock)];
      right; unfold w2 in *.
    + exists O. rewrite Nat.add_0_r. unfold after_read. simpl. split; lia.
    + exists (S k). unfold after_read in *. simpl in *. split; [lia|].
      by replace (polls w + S k)%nat with (polls w + 1 + 0 + k)%nat by lia.
Qed.

(** Once the rounds still to come add up to what is left of the timeout,
    the loop ends within as many passes, having made at most as many
    status reads. *)
Lemma wait_loop_ends (vs_id batch_id : string)
    (timeout_seconds poll_interval start_time : Z) (n : nat) :
  0 <= poll_interval ->
  forall (last : option batch) (w : world) (fuel : nat),
    start_time <= clock w ->
    reads_succeed w ->
    1000 * timeout_seconds
    <= clock w - start_time + rounds_ms n poll_interval (poll_script w) (polls w) ->
    (n < fuel)%nat ->
    exists r w',
      wait_loop fuel vs_id batch_id timeout_seconds poll_interval start_time last w
      = Some (r, w')
      /\ (polls w' <= polls w + n)%nat.
Proof.
  intros Hpi. induction n as [|n IH]; intros last w [|fuel] Hstart Hreads Hn Hfuel;
    try lia; simpl wait_loop;
    destruct (wait_pass_cases vs_id batch_id timeout_seconds poll_interval start_time last w)
      as [(Hdue & Hw & Hr) | (Hearly & [(e & _ & Hrun) | [(b & _ & _ & Hrun)
         | [(b & _ & _ & Hneg & _) | (b & Hb & _ & _ & Hrun)]]])];
    try lia.
  1, 5: destruct (wait_pass _ _ _ _ _ _ _) as [r0 w0]; simpl in *; subst;
    destruct last; eexists _, _; (split; [reflexivity | lia]).
  1-3: pose proof (before_deadline _ _ _ Hstart Hearly); simpl in Hn; lia.
  1, 2: rewrite Hrun; eexists _, _; (split; [reflexivity | unfold after_read; simpl; lia]).
  rewrite Hrun.
  set (w2 := record (Sleep poll_interval) (1000 * poll_interval) 0
               (after_read vs_id batch_id w)).
  destruct (Hreads (polls w)) as [_ Hlat]; [lia|].
  destruct (IH (Some b) w2 fuel) as (r & w' & Hloop & Hpolls).
  - unfold w2, after_read. simpl. lia.
  - by do 2 apply reads_succeed_record.
  - unfold w2, after_read. simpl. simpl in Hn.
    replace (polls w + 1 + 0)%nat with (S (polls w)) by lia. lia.
  - lia.
  - exists r, w'. split; [done|]. unfold w2, after_read in Hpolls. simpl in Hpolls. lia.
Qed.

(** X9: with [timeout_seconds >= 1], a [poll_interval] that is not
    negative and status reads that succeed, once the reads and sleeps of
    [n] rounds add up to the timeout [wait_for_batch] ends, however it
    ends: it makes at most [n] status reads, and it ends less than
    [timeout_seconds + poll_interval] seconds plus the duration of its
    last status read after it was called. *)
Theorem wait_for_batch_deadline (fuel n : nat) (vs_id batch_id : string)
    (timeout_seconds poll_interval : Z) (w : world) :
  1 <= timeout_seconds ->
  0 <= poll_interval ->
  reads_succeed w ->
  1000 * timeout_seconds <= rounds_ms n poll_interval (poll_script w) (polls w) ->
  (n < fuel)%nat ->
  exists (r : result string) (w' : world) (k : nat),
    wait_for_batch fuel vs_id batch_id timeout_seconds poll_interval w = Some (r, w')
    /\ (S k <= n)%nat
    /\ polls w' = (polls w + S k)%nat
    /\ clock w' - clock w
       < 1000 * (timeout_seconds + poll_interval) + latency (poll_script w (polls w + k)).
Proof.
  intros Ht Hpi Hreads Hn Hfuel. unfold wait_for_batch, time_time.
  destruct (wait_loop_ends vs_id batch_id timeout_seconds poll_interval (clock w) n Hpi
              None w fuel) as (r & w' & Hloop & Hpolls); [lia | done | lia | done |].
  exists r, w'.
  destruct (wait_loop_deadline _ _ _ _ _ _ Hpi _ _ _ _ (Z.le_refl _) Hreads Hloop)
    as [[_ Hdue] | (k & Hk & Hclock)].
  - unfold elapsed_seconds in Hdue. rewrite Z.sub_diag in Hdue.
    change (0 ÷ 1000) with 0 in Hdue. lia.
  - exists k. split; [done|]. split; [lia|]. by split.
Qed.

Lemma wait_for_batch_deadline_witness :
  let w := world_with [] (always (in_progress_batch None)) in
  exists (r : result string) (w' : world) (k : nat),
    wait_for_batch 6 "vs_1" "vsfb_1" 1 0 w = Some (r, w')
    /\ (S k <= 5)%nat
    /\ polls w' = (polls w + S k)%nat
    /\ clock w' - clock w < 1000 * (1 + 0) + latency (poll_script w (polls w + k)).
Proof.
  intros w.
  apply (wait_for_batch_deadline 6 5 "vs_1" "vsfb_1" 1 0 w).
  - lia.
  - lia.
  - intros k _. split; [by eexists | vm_compute; discriminate].
  - vm_compute. discriminate.
  - lia.
Defined.

(** ** Create, then wait *)

(** X10: [create_and_wait_batch] first submits the batch, with the file
    ids as given and no chunking strategy.  If the submission fails it
    ends there with the indexer's error, without any status read.  If it
    returns, the value is a terminal status and every later call is a
    status read of the batch just created or a sleep of 5 seconds. *)
Theorem create_and_wait_batch_calls (fuel : nat) (vs_id : string)
    (file_ids : list string) (timeout_seconds : Z) (w : world) :
  (forall e,
      create_reply w vs_id file_ids None = Raise e ->
      create_and_wait_batch fuel vs_id file_ids timeout_seconds w
      = Some (Raise e, record (FileBatchesCreate vs_id file_ids None) 0 0 w))
  /\ (forall s w',
        create_and_wait_batch fuel vs_id file_ids timeout_seconds w = Some (Ok s, w') ->
        terminal s
        /\ exists (b : batch) (k : nat),
             create_reply w vs_id file_ids None = Ok b
             /\ calls w' = calls w
                  ++ FileBatchesCreate vs_id file_ids None
                  :: poll_rounds k vs_id (id b) 5 ++ [FileBatchesRetrieve vs_id (id b)]).
Proof.
  unfold create_and_wait_batch, create_file_batch, file_batches_create,
    mbind, M_bind, mret, M_ret.
  split.
  - intros e He. by rewrite He.
  - intros s w'. destruct (create_reply w vs_id file_ids None) as [b|e]; [|done].
    unfold wait_for_batch, time_time. intros Hwait.
    destruct (wait_loop_returns _ _ _ _ _ _ _ _ _ _ Hwait)
      as (Hterm & k & b' & _ & _ & _ & _ & Hcalls).
    split; [done|]. exists b, k. split; [done|].
    rewrite Hcalls. simpl. by rewrite <- app_assoc.
Qed.

Lemma create_and_wait_batch_calls_witness :
  let w := world_with [] (then_final 1 "completed") in
  exists w',
    create_and_wait_batch 3 "vs_1" ["f1"; "f2"] 300 w = Some (Ok "completed", w')
    /\ calls w' = [FileBatchesCreate "vs_1" ["f1"; "f2"] None;
                   FileBatchesRetrieve "vs_1" "vsfb_1"; Sleep 5;
                   FileBatchesRetrieve "vs_1" "vsfb_1"]
    /\ terminal "completed".
Proof.
  intros w. eexists. split; [vm_compute; reflexivity|]. split; [reflexivity|].
  eapply (proj2 (create_and_wait_batch_calls 3 "vs_1" ["f1"; "f2"] 300 w)).
  vm_compute. reflexivity.
Defined.

(** ** The status endpoint *)

(** X11: with a client configured, the batch status endpoint makes one
    status read.  When the read succeeds it reports the batch's id and
    status, zero for every count if the batch has no counts, and
    [is_complete] exactly when the status is neither "queued" nor
    "in_progress" (so for every status on which [wait_for_batch] returns,
    and also for any other status such as "expired"); when the read fails
    the error is an HTTP 500 carrying the provider's message. *)
Theorem get_batch_status_reports (state : Api.AppState) (vs_id batch_id : string)
    (w : world) :
  Api.has_client state = true ->
  match outcome (poll_script w (polls w)) with
  | Ok b =>
      exists response,
        ApiBatch.get_batch_status state vs_id batch_id w
          = (Ok response, after_read vs_id batch_id w)
        /\ ApiBatch.bs_batch_id response = id b
        /\ ApiBatch.bs_status response = status b
        /\ (ApiBatch.bs_is_complete response = true
            <-> status b <> "queued" /\ status b <> "in_progress")
        /\ (terminal (status b) -> ApiBatch.bs_is_complete response = true)
        /\ (counts b = None -> ApiBatch.bs_file_counts response = FileCounts 0 0 0 0 0)
        /\ (forall c, counts b = Some c -> ApiBatch.bs_file_counts response = c)
  | Raise e =>
      ApiBatch.get_batch_status state vs_id batch_id w
      = (Raise (HTTPException 500 ("Error al obtener estado del batch: " +:+ exn_str e)),
         after_read vs_id batch_id w)
  end.
Proof.
  intros Hclient.
  unfold ApiBatch.get_batch_status, catch, raise, file_batches_retrieve, after_read,
    mbind, M_bind, mret, M_ret.
  rewrite Hclient. simpl.
  destruct (outcome (poll_script w (polls w))) as [b|e]; [|done].
  eexists. split; [reflexivity|]. simpl.
  assert (Hiff : ApiBatch.is_complete (status b) = true
                 <-> status b <> "queued" /\ status b <> "in_progress").
  { unfold ApiBatch.is_complete.
    destruct (String.eqb_spec (status b) "queued");
      destruct (String.eqb_spec (status b) "in_progress"); simpl; split;
      try done; intros [? ?]; done. }
  split; [done|]. split; [done|]. split; [done|]. split.
  - intros [-> | [-> | ->]]; reflexivity.
  - split; [by intros -> | by intros c ->].
Qed.

Lemma get_batch_status_reports_witness :
  let w := world_with [] (always (Batch "vsfb_1" "expired" None)) in
  exists response,
    ApiBatch.get_batch_status app_state "vs_1" "vsfb_1" w
      = (Ok response, after_read "vs_1" "vsfb_1" w)
    /\ ApiBatch.bs_batch_id response = "vsfb_1"
    /\ ApiBatch.bs_status response = "expired"
    /\ (ApiBatch.bs_is_complete response = true
        <-> "expired" <> "queued" /\ "expired" <> "in_progress")
    /\ (terminal "expired" -> ApiBatch.bs_is_complete response = true)
    /\ (@None file_counts = None -> ApiBatch.bs_file_counts response = FileCounts 0 0 0 0 0)
    /\ (forall c, None = Some c -> ApiBatch.bs_file_counts response = c).
Proof.
  intros w. apply (get_batch_status_reports app_state "vs_1" "vsfb_1" w). reflexivity.
Defined.

End BatchMore.

(* ===================================================================== *)
(** * Further properties: the /api/query handler *)
(* ===================================================================== *)

Module QueryMore.
Import VectorSearch Reading Notions Samples PyFacts.

(** ** Failures *)

Lemma to_http_error_is_http (e : exn) :
  exists status detail, Api.to_http_error e = HTTPException status detail.
Proof. destruct e; simpl; eauto. Qed.

(** X12: whatever goes wrong, the only exception that leaves the
    /api/query handler is an [HTTPException]; when no client is configured
    or no vector store id can be resolved its status is 400 and the
    provider is not called at all. *)
Theorem query_rag_failures (state : Api.AppState) (request : Api.QueryRequest)
    (w w' : world) (e : exn) :
  Api.query_rag state request w = (Raise e, w') ->
  exists status detail,
    e = HTTPException status detail
    /\ (Api.has_client state = false
        \/ (forall vs_id,
              Api.or_else (Api.req_vector_store_id request)
                          (Api.state_vector_store_id state) = Some vs_id ->
              vs_id = EmptyString) ->
        status = 400 /\ w' = w).
Proof.
  unfold Api.query_rag, raise, catch.
  destruct (Api.has_client state); simpl.
  - destruct (Api.or_else _ _) as [vs_id|].
    + destruct vs_id as [|c vs_id]; simpl.
      * intros [= <- <-]. eexists _, _. by split.
      * destruct (Api.query_body _ request w) as [[response|e0] w0]; [done|].
        intros [= <- <-].
        destruct (to_http_error_is_http e0) as (status & detail & ->).
        exists status, detail. split; [done|].
        intros [? | Hnone]; [done|]. by specialize (Hnone _ eq_refl).
    + intros [= <- <-]. eexists _, _. by split.
  - intros [= <- <-]. eexists _, _. by split.
Qed.

Lemma query_rag_failures_witness :
  let w := world_with [hit_direct] (always (in_progress_batch None)) in
  let state := {| Api.has_client := true; Api.api_key := None;
                  Api.state_vector_store_id := None |} in
  let request := {| Api.req_query := "q"; Api.req_vector_store_id := Some EmptyString;
                    Api.req_model := "gpt-5-mini" |} in
  Api.query_rag state request w
    = (Raise (HTTPException 400 "No hay Vector Store configurado. Crea uno primero."), w)
  /\ exists status detail,
       HTTPException 400 "No hay Vector Store configurado. Crea uno primero."
         = HTTPException status detail
       /\ (Api.has_client state = false
           \/ (forall vs_id,
                 Api.or_else (Api.req_vector_store_id request)
                             (Api.state_vector_store_id state) = Some vs_id ->
                 vs_id = EmptyString) ->
           status = 400 /\ w = w).
Proof.
  intros w state request. split; [reflexivity|].
  apply (query_rag_failures state request w w). reflexivity.
Defined.

(** ** Calls made to the provider *)

Lemma visit_hit_calls (i : nat) (h : hit) (g : Api.gathered) (w w' : world)
    (r : result Api.gathered) :
  Api.visit_hit i h g w = (r, w') ->
  exists lookups,
    calls w' = calls w ++ lookups
    /\ Forall is_lookup lookups
    /\ (length lookups <= 1)%nat.
Proof.
  unfold Api.visit_hit, lift, attempt, files_retrieve, mbind, M_bind, mret, M_ret.
  assert (Hnone : forall w0 : world, w0 = w ->
            exists lookups, calls w0 = calls w ++ lookups
                            /\ Forall is_lookup lookups /\ (length lookups <= 1)%nat).
  { intros w0 ->. exists []. rewrite app_nil_r. split; [done|]. split; [done | simpl; lia]. }
  destruct (Api.extract_text_from_hit h) as [txt|e]; [|intros [= _ <-]; by apply Hnone].
  destruct (str_truthy txt); [|intros [= _ <-]; by apply Hnone].
  destruct (hit_file_id h) as [fid|]; [|intros [= _ <-]; by apply Hnone].
  destruct (str_truthy fid && bool_decide (Api.file_id_to_name g !! fid = None));
    [|intros [= _ <-]; by apply Hnone].
  destruct (files_reply w fid); simpl; intros [= _ <-];
    (exists [FilesRetrieve fid]; split; [done|]; split;
     [constructor; [by exists fid | done] | simpl; lia]).
Qed.

Lemma visit_hits_calls (hits : list hit) :
  forall (i : nat) (g : Api.gathered) (w w' : world) (r : result Api.gathered),
    Api.visit_hits i hits g w = (r, w') ->
    exists lookups,
      calls w' = calls w ++ lookups
      /\ Forall is_lookup lookups
      /\ (length lookups <= length hits)%nat.
Proof.
  induction hits as [|h hits IH]; intros i g w w' r; simpl.
  - unfold mret, M_ret. intros [= _ <-]. exists []. rewrite app_nil_r.
    split; [done|]. split; [done | simpl; lia].
  - unfold mbind, M_bind.
    destruct (Api.visit_hit i h g w) as [[g1|e] w1] eqn:Hvisit;
      destruct (visit_hit_calls _ _ _ _ _ _ Hvisit) as (l1 & Hc1 & Hl1 & Hn1).
    + intros Hrest. destruct (IH _ _ _ _ _ Hrest) as (l2 & Hc2 & Hl2 & Hn2).
      exists (l1 ++ l2). rewrite Hc2, Hc1, <- app_assoc. split; [done|].
      split; [by apply Forall_app|]. rewrite length_app. lia.
    + intros [= _ <-]. exists l1. split; [done|]. split; [done|]. lia.
Qed.

(** X13: once a client and a vector store id are there, a request to
    /api/query makes exactly one search, asking for 20 results, followed by
    at most 10 file lookups, followed by at most one chat completion; the
    completion is asked of the requested model with reasoning effort
    "high", and the context in its prompt is not empty and at most 8000
    characters long. *)
Theorem query_rag_calls (state : Api.AppState) (request : Api.QueryRequest)
    (vs_id : string) (w w' : world) (r : result Api.QueryResponse) :
  Api.has_client state = true ->
  Api.or_else (Api.req_vector_store_id request) (Api.state_vector_store_id state)
    = Some vs_id ->
  str_truthy vs_id = true ->
  Api.query_rag state request w = (r, w') ->
  exists lookups tail,
    calls w' = calls w
      ++ VectorStoreSearch vs_id (Api.req_query request) 20 :: lookups ++ tail
    /\ Forall is_lookup lookups
    /\ (length lookups <= 10)%nat
    /\ (tail = []
        \/ exists ctx,
             0 < len ctx <= 8000
             /\ tail = [ChatCompletionsCreate (Api.req_model request)
                          (Api.query_messages ctx (Api.req_query request))
                          (ReasoningEffort "high")]).
Proof.
  intros Hclient Hvs Htruthy.
  unfold Api.query_rag, catch, raise. rewrite Hclient, Hvs, Htruthy. simpl.
  assert (Hbody : forall r0 w0,
            Api.query_body vs_id request w = (r0, w0) ->
            exists lookups tail,
              calls w0 = calls w
                ++ VectorStoreSearch vs_id (Api.req_query request) 20 :: lookups ++ tail
              /\ Forall is_lookup lookups
              /\ (length lookups <= 10)%nat
              /\ (tail = []
                  \/ exists ctx,
                       0 < len ctx <= 8000
                       /\ tail = [ChatCompletionsCreate (Api.req_model request)
                                    (Api.query_messages ctx (Api.req_query request))
                                    (ReasoningEffort "high")])).
  { intros r0 w0.
    unfold Api.query_body, Api.retrieve, vector_store_search, chat_completions_create,
      mbind, M_bind, mret, M_ret.
    destruct (search_reply w vs_id (Api.req_query request) 20) as [sr|e].
    - set (w1 := record (VectorStoreSearch vs_id (Api.req_query request) 20) 0 0 w).
      destruct (Api.visit_hits 1 (take 10 (get_data sr)) _ w1) as [[g|e] w2] eqn:Hvisit;
        destruct (visit_hits_calls _ _ _ _ _ _ Hvisit) as (lookups & Hcalls & Hall & Hlen);
        rewrite length_take in Hlen.
      + set (ctx := slice_to (join default_separator (Api.chunks g)) 8000).
        destruct (str_truthy ctx) eqn:Hctx; simpl.
        * assert (Hbound : 0 < len ctx <= 8000).
          { split; [unfold len; destruct ctx; simpl in *; [done | lia]|].
            unfold ctx. rewrite len_slice_to_nonneg by lia. lia. }
          destruct (chat_reply w2 _ _ _); intros [= _ <-];
            (exists lookups, [ChatCompletionsCreate (Api.req_model request)
                               (Api.query_messages ctx (Api.req_query request))
                               (ReasoningEffort "high")];
             split; [simpl; rewrite Hcalls; subst w1; simpl;
                     by rewrite <- !app_assoc|];
             split; [done|]; split; [lia|]; right; by exists ctx).
        * intros [= _ <-]. exists lookups, []. rewrite app_nil_r, Hcalls.
          subst w1. simpl. rewrite <- app_assoc. split; [done|].
          split; [done|]. split; [lia | by left].
      + intros [= _ <-]. exists lookups, []. rewrite app_nil_r, Hcalls.
        subst w1. simpl. rewrite <- app_assoc. split; [done|].
        split; [done|]. split; [lia | by left].
    - intros [= _ <-]. exists [], []. simpl. split; [done|]. split; [done|].
      split; [lia | by left]. }
  destruct (Api.query_body vs_id request w) as [[response|e] w0] eqn:Hrun;
    intros [= _ <-]; by eapply Hbody.
Qed.

Lemma query_rag_calls_witness :
  let w := world_with [hit_direct; hit_nested] (always (in_progress_batch None)) in
  exists r w',
    Api.query_rag app_state request w = (r, w')
    /\ exists lookups tail,
         calls w' = calls w ++ VectorStoreSearch "vs_1" "shipping time" 20 :: lookups ++ tail
         /\ Forall is_lookup lookups
         /\ (length lookups <= 10)%nat
         /\ (tail = []
             \/ exists ctx,
                  0 < len ctx <= 8000
                  /\ tail = [ChatCompletionsCreate "gpt-5-mini"
                               (Api.query_messages ctx "shipping time")
                               (ReasoningEffort "high")]).
Proof.
  intros w. eexists _, _. split; [vm_compute; reflexivity|].
  eapply (query_rag_calls app_state request "vs_1" w).
  - reflexivity.
  - reflexivity.
  - reflexivity.
  - vm_compute. reflexivity.
Defined.

(** ** The response *)

(** X14: a response of /api/query always has [success = true] and a
    context excerpt of at most 503 characters (500 plus the ellipsis); an
    empty excerpt only ever comes with the fixed "nothing found" answer
    and no source. *)
Theorem query_rag_response_shape (state : Api.AppState) (request : Api.QueryRequest)
    (w w' : world) (response : Api.QueryResponse) :
  Api.query_rag state request w = (Ok response, w') ->
  Api.success response = true
  /\ len (Api.context response) <= 503
  /\ (Api.context response = EmptyString ->
      Api.answer response = Api.no_context_answer /\ Api.sources response = []).
Proof.
  unfold Api.query_rag, raise, catch.
  destruct (Api.has_client state); simpl; [|done].
  destruct (Api.or_else _ _) as [vs_id|]; [|done].
  destruct (str_truthy vs_id); [|done].
  unfold Api.query_body, chat_completions_create, mbind, M_bind, mret, M_ret.
  destruct (Api.retrieve vs_id (Api.req_query request) w) as [[[ctx srcs]|e] w1]; [|done].
  destruct ctx as [|c ctx]; simpl.
  - intros [= <- <-]. simpl. split; [done|]. split; [unfold len; simpl; lia | done].
  - destruct (chat_reply w1 _ _ _) as [reply|e]; [|done].
    intros [= <- <-]. simpl. split; [done|].
    destruct (Z.gtb_spec (len (String c ctx)) 500) as [Hlong|Hshort].
    + split.
      * rewrite len_append, len_slice_to_nonneg by lia.
        change (len "...") with 3. lia.
      * simpl. discriminate.
    + split; [lia | discriminate].
Qed.

Lemma query_rag_response_shape_witness :
  let w := world_with [hit_direct] (always (in_progress_batch None)) in
  exists response w',
    Api.query_rag app_state request w = (Ok response, w')
    /\ Api.success response = true
    /\ len (Api.context response) <= 503
    /\ (Api.context response = EmptyString ->
        Api.answer response = Api.no_context_answer /\ Api.sources response = []).
Proof.
  intros w. eexists _, _. split; [vm_compute; reflexivity|].
  eapply (query_rag_response_shape app_state request w). vm_compute. reflexivity.
Defined.

(** ** The cache of file names *)

Lemma lookups_of_app (file_id : string) (l1 l2 : list call) :
  lookups_of file_id (l1 ++ l2) = (lookups_of file_id l1 + lookups_of file_id l2)%nat.
Proof. unfold lookups_of. by rewrite List.filter_app, length_app. Qed.

Lemma lookups_of_one (file_id other : string) :
  lookups_of file_id [FilesRetrieve other] = if String.eqb other file_id then 1%nat else 0%nat.
Proof. unfold lookups_of. simpl. by destruct (String.eqb other file_id). Qed.

Lemma split_snoc {A : Type} (l l1 l2 : list A) (x y : A) :
  l ++ [y] = l1 ++ x :: l2 ->
  (l2 = [] /\ l1 = l /\ x = y)
  \/ exists l2', l2 = l2' ++ [y] /\ l = l1 ++ x :: l2'.
Proof.
  destruct l2 as [|z l2 _] using rev_ind.
  - intros H. apply app_inj_tail in H as [-> ->]. by left.
  - rewrite app_comm_cons, app_assoc. intros H.
    apply app_inj_tail in H as [-> ->]. right. by exists l2.
Qed.

Lemma lookups_kept_tail (reply : nat -> string -> result string) (w0 : world)
    (extra : list call) (g : Api.gathered) (c : call) :
  ApiLookups.is_files_retrieve c = false ->
  lookups_kept reply w0 extra g -> lookups_kept reply w0 (extra ++ [c]) g.
Proof.
  intros Hc Hkept before file_id after name Hsplit Hname.
  apply split_snoc in Hsplit as [(_ & _ & <-) | (after' & -> & ->)]; [done|].
  destruct (Hkept _ _ _ _ eq_refl Hname) as [Hknown Hnone]. split; [done|].
  rewrite lookups_of_app, Hnone. unfold lookups_of. simpl. by destruct c.
Qed.

Lemma visit_hit_lookups (reply : nat -> string -> result string) (i : nat) (h : hit)
    (g : Api.gathered) (w w' w0 : world) (r : result Api.gathered) (extra : list call) :
  calls w = calls w0 ++ extra ->
  lookups_kept reply w0 extra g ->
  ApiLookups.visit_hit reply i h g w = (r, w') ->
  exists extra' g',
    calls w' = calls w0 ++ extra'
    /\ lookups_kept reply w0 extra' g'
    /\ (forall g1, r = Ok g1 -> g1 = g').
Proof.
  intros Hcalls Hkept.
  unfold ApiLookups.visit_hit, ApiLookups.files_retrieve, lift, attempt,
    mbind, M_bind, mret, M_ret.
  assert (Hsame : forall g1 : Api.gathered,
            Api.file_id_to_name g1 = Api.file_id_to_name g ->
            forall r1, (forall g2, r1 = Ok g2 -> g2 = g1) ->
            exists extra' g',
              calls w = calls w0 ++ extra'
              /\ lookups_kept reply w0 extra' g'
              /\ (forall g2, r1 = Ok g2 -> g2 = g')).
  { intros g1 Hmap r1 Hr1. exists extra, g1. split; [done|]. split; [|done].
    intros before file_id after name Hsplit Hname. rewrite Hmap.
    exact (Hkept _ _ _ _ Hsplit Hname). }
  destruct (Api.extract_text_from_hit h) as [txt|e];
    [|intros [= <- <-]; by apply (Hsame g)].
  destruct (str_truthy txt);
    [|intros [= <- <-]; apply (Hsame g); [done | by intros ? [= <-]]].
  destruct (hit_file_id h) as [fid|];
    [|intros [= <- <-]; eapply Hsame; [|by intros ? [= <-]]; done].
  destruct (str_truthy fid && bool_decide (Api.file_id_to_name g !! fid = None)) eqn:Hcond;
    [|intros [= <- <-]; eapply Hsame; [|by intros ? [= <-]]; done].
  apply andb_true_iff in Hcond as [_ Hfresh]. apply bool_decide_eq_true in Hfresh.
  rewrite Hcalls.
  assert (Hearlier : forall before file_id after' name,
            extra = before ++ FilesRetrieve file_id :: after' ->
            reply (ApiLookups.lookups_in (calls w0 ++ before)) file_id = Ok name ->
            is_Some (Api.file_id_to_name g !! file_id)
            /\ lookups_of file_id (after' ++ [FilesRetrieve fid]) = 0%nat).
  { intros before file_id after' name Hsplit Hname.
    destruct (Hkept _ _ _ _ Hsplit Hname) as [Hknown Hnone]. split; [done|].
    rewrite lookups_of_app, lookups_of_one, Hnone.
    destruct (String.eqb_spec fid file_id) as [<-|_]; [|done].
    rewrite Hfresh in Hknown. by destruct Hknown. }
  destruct (reply (ApiLookups.lookups_in (calls w0 ++ extra)) fid) as [filename|e] eqn:Hfid;
    simpl; intros [= <- <-].
  - eexists (extra ++ [FilesRetrieve fid]), _. simpl.
    split; [by rewrite Hcalls, <- app_assoc|]. split; [|by intros ? [= <-]].
    intros before file_id after name Hsplit Hname. simpl.
    apply split_snoc in Hsplit as [(-> & -> & [= ->]) | (after' & -> & ->)].
    + split; [|done]. rewrite lookup_insert_eq. by eexists.
    + destruct (Hearlier _ _ _ _ eq_refl Hname) as [Hknown Hnone]. split; [|done].
      destruct (decide (fid = file_id)) as [<-|Hne]; [rewrite lookup_insert_eq; by eexists|].
      by rewrite lookup_insert_ne.
  - eexists (extra ++ [FilesRetrieve fid]), _. simpl.
    split; [by rewrite Hcalls, <- app_assoc|]. split; [|by intros ? [= <-]].
    intros before file_id after name Hsplit Hname. simpl.
    apply split_snoc in Hsplit as [(-> & -> & [= ->]) | (after' & -> & ->)].
    + congruence.
    + exact (Hearlier _ _ _ _ eq_refl Hname).
Qed.

Lemma visit_hits_lookups (reply : nat -> string -> result string) (hits : list hit) :
  forall (i : nat) (g : Api.gathered) (w w' w0 : world) (r : result Api.gathered)
         (extra : list call),
    calls w = calls w0 ++ extra ->
    lookups_kept reply w0 extra g ->
    ApiLookups.visit_hits reply i hits g w = (r, w') ->
    exists extra' g',
      calls w' = calls w0 ++ extra' /\ lookups_kept reply w0 extra' g'.
Proof.
  induction hits as [|h hits IH]; intros i g w w' w0 r extra Hcalls Hkept; simpl.
  - unfold mret, M_ret. intros [= _ <-]. by exists extra, g.
  - unfold mbind, M_bind.
    destruct (ApiLookups.visit_hit reply i h g w) as [[g1|e] w1] eqn:Hvisit;
      destruct (visit_hit_lookups _ _ _ _ _ _ _ _ _ Hcalls Hkept Hvisit)
        as (extra1 & g' & Hcalls1 & Hkept1 & Hg1).
    + rewrite (Hg1 g1 eq_refl). intros Hrest.
      by eapply (IH _ _ _ _ _ _ _ Hcalls1 Hkept1).
    + intros [= _ <-]. by exists extra1, g'.
Qed.

(** X15: within one request to /api/query, once a lookup of a file id
    has succeeded that id is not looked up again, however many hits come
    from that file; so no id is looked up successfully twice, and only a
    lookup that failed is repeated.  The provider may answer a lookup
    differently from one call to the next. *)
Theorem query_rag_no_lookup_after_success (reply : nat -> string -> result string)
    (state : Api.AppState) (request : Api.QueryRequest) (w w' : world)
    (r : result Api.QueryResponse) :
  ApiLookups.query_rag reply state request w = (r, w') ->
  exists extra,
    calls w' = calls w ++ extra
    /\ forall before file_id after name,
         extra = before ++ FilesRetrieve file_id :: after ->
         reply (ApiLookups.lookups_in (calls w ++ before)) file_id = Ok name ->
         lookups_of file_id after = 0%nat.
Proof.
  assert (Hnone : forall w0 : world, w0 = w ->
            exists extra, calls w0 = calls w ++ extra
              /\ forall before file_id after name,
                   extra = before ++ FilesRetrieve file_id :: after ->
                   reply (ApiLookups.lookups_in (calls w ++ before)) file_id = Ok name ->
                   lookups_of file_id after = 0%nat).
  { intros w0 ->. exists []. rewrite app_nil_r. split; [done|].
    intros before file_id after name Hsplit. by destruct before. }
  assert (Hfrom : forall extra g, lookups_kept reply w extra g ->
            forall before file_id after name,
              extra = before ++ FilesRetrieve file_id :: after ->
              reply (ApiLookups.lookups_in (calls w ++ before)) file_id = Ok name ->
              lookups_of file_id after = 0%nat).
  { intros extra g Hkept before file_id after name Hsplit Hname.
    by destruct (Hkept _ _ _ _ Hsplit Hname). }
  unfold ApiLookups.query_rag, raise, catch.
  destruct (Api.has_client state); simpl; [|intros [= _ <-]; by apply Hnone].
  destruct (Api.or_else _ _) as [vs_id|]; [|intros [= _ <-]; by apply Hnone].
  destruct (str_truthy vs_id); [|intros [= _ <-]; by apply Hnone].
  assert (Hbody : forall r0 w0,
            ApiLookups.query_body reply vs_id request w = (r0, w0) ->
            exists extra, calls w0 = calls w ++ extra
              /\ forall before file_id after name,
                   extra = before ++ FilesRetrieve file_id :: after ->
                   reply (ApiLookups.lookups_in (calls w ++ before)) file_id = Ok name ->
                   lookups_of file_id after = 0%nat).
  { intros r0 w0.
    unfold ApiLookups.query_body, ApiLookups.retrieve, vector_store_search,
      chat_completions_create, mbind, M_bind, mret, M_ret.
    set (search := VectorStoreSearch vs_id (Api.req_query request) 20).
    assert (Hstart : lookups_kept reply w [search]
                       {| Api.chunks := []; Api.found := [];
                          Api.file_id_to_name := ∅ |}).
    { intros before file_id after name Hsplit.
      destruct before as [|c [|c' before]]; discriminate Hsplit. }
    destruct (search_reply w vs_id (Api.req_query request) 20) as [sr|e].
    - destruct (ApiLookups.visit_hits reply 1 (take 10 (get_data sr)) _ (record search 0 0 w))
        as [[g|e] w2] eqn:Hvisit;
        destruct (visit_hits_lookups _ _ _ _ (record search 0 0 w) _ w _ [search]
                    eq_refl Hstart Hvisit)
          as (extra & g' & Hcalls & Hkept).
      + destruct (str_truthy _); simpl.
        * destruct (chat_reply w2 _ _ _); intros [= _ <-]; simpl;
            (eexists (extra ++ [_]); split; [by rewrite Hcalls, <- app_assoc|];
             eapply Hfrom; by apply lookups_kept_tail).
        * intros [= _ <-]. exists extra. split; [done|]. by eapply Hfrom.
      + intros [= _ <-]. exists extra. split; [done|]. by eapply Hfrom.
    - intros [= _ <-]. exists [search]. split; [done|]. by eapply Hfrom. }
  destruct (ApiLookups.query_body reply vs_id request w) as [[response|e] w0] eqn:Hrun;
    intros [= _ <-]; by eapply Hbody.
Qed.

Lemma query_rag_no_lookup_after_success_witness :
  let w := world_with [hit_direct; hit_direct; hit_direct] (always (in_progress_batch None)) in
  exists r w',
    ApiLookups.query_rag fails_once app_state request w = (r, w')
    /\ calls w' = [VectorStoreSearch "vs_1" "shipping time" 20;
                   FilesRetrieve "file-1"; FilesRetrieve "file-1";
                   ChatCompletionsCreate "gpt-5-mini"
                     (Api.query_messages
                        ("[Chunk #1]" +:+ LF +:+ "Ship in 3 days" +:+ default_separator +:+
                         "[Chunk #2]" +:+ LF +:+ "Ship in 3 days" +:+ default_separator +:+
                         "[Chunk #3]" +:+ LF +:+ "Ship in 3 days")
                        "shipping time")
                     (ReasoningEffort "high")]
    /\ exists extra,
         calls w' = calls w ++ extra
         /\ forall before file_id after name,
              extra = before ++ FilesRetrieve file_id :: after ->
              fails_once (ApiLookups.lookups_in (calls w ++ before)) file_id = Ok name ->
              lookups_of file_id after = 0%nat.
Proof.
  intros w. eexists _, _. split; [vm_compute; reflexivity|]. split; [vm_compute; reflexivity|].
  eapply (query_rag_no_lookup_after_success fails_once app_state request w).
  vm_compute. reflexivity.
Defined.

(** ** Agreement with the handler over a lookup that never changes *)

Lemma visit_hit_fixed_lookup (lookup : string -> result string) (i : nat) (h : hit)
    (g : Api.gathered) (w : world) :
  files_reply w = lookup ->
  ApiLookups.visit_hit (fun _ => lookup) i h g w = Api.visit_hit i h g w
  /\ files_reply (Api.visit_hit i h g w).2 = lookup.
Proof.
  intros <-.
  unfold ApiLookups.visit_hit, ApiLookups.files_retrieve, Api.visit_hit, files_retrieve,
    lift, attempt, mbind, M_bind, mret, M_ret.
  destruct (Api.extract_text_from_hit h) as [txt|e]; [|done].
  destruct (str_truthy txt); [|done].
  destruct (hit_file_id h) as [fid|]; [|done].
  destruct (str_truthy fid && bool_decide (Api.file_id_to_name g !! fid = None)); [|done].
  by destruct (files_reply w fid).
Qed.

Lemma visit_hits_fixed_lookup (lookup : string -> result string) (hits : list hit) :
  forall (i : nat) (g : Api.gathered) (w : world),
    files_reply w = lookup ->
    ApiLookups.visit_hits (fun _ => lookup) i hits g w = Api.visit_hits i hits g w.
Proof.
  induction hits as [|h hits IH]; intros i g w Hw; simpl; [done|].
  unfold mbind, M_bind.
  destruct (visit_hit_fixed_lookup lookup i h g w Hw) as [-> Hnext].
  destruct (Api.visit_hit i h g w) as [[g1|e] w1]; [|done].
  by apply IH.
Qed.

(** Over a provider whose answer to a lookup depends on the file id
    alone, the handler of [ApiLookups] is the handler of [Api]. *)
Lemma query_rag_fixed_lookup (state : Api.AppState) (request : Api.QueryRequest)
    (w : world) :
  ApiLookups.query_rag (fun _ => files_reply w) state request w
  = Api.query_rag state request w.
Proof.
  unfold ApiLookups.query_rag, Api.query_rag.
  destruct (negb (Api.has_client state)); [done|].
  destruct (Api.or_else _ _) as [vs_id|]; [|done].
  destruct (str_truthy vs_id); [|done].
  unfold catch, ApiLookups.query_body, Api.query_body, ApiLookups.retrieve, Api.retrieve,
    vector_store_search, mbind, M_bind.
  destruct (search_reply w vs_id (Api.req_query request) 20) as [sr|e]; [|done].
  by rewrite visit_hits_fixed_lookup.
Qed.

(** A lookup that fails is not remembered: it is made again for every hit
    of that file. *)
Example failing_lookup_is_repeated :
  calls (Api.query_rag app_state request
           (world_lookup_fails [hit_direct; hit_direct])).2
  = [VectorStoreSearch "vs_1" "shipping time" 20;
     FilesRetrieve "file-1"; FilesRetrieve "file-1";
     ChatCompletionsCreate "gpt-5-mini"
       (Api.query_messages
          ("[Chunk #1]" +:+ LF +:+ "Ship in 3 days" +:+ default_separator +:+
           "[Chunk #2]" +:+ LF +:+ "Ship in 3 days")
          "shipping time")
       (ReasoningEffort "high")].
Proof. vm_compute. reflexivity. Qed.

End QueryMore.

(* ===================================================================== *)
(** * Further properties: the RAG assistant *)
(* ===================================================================== *)

Module RagMore.
Import VectorSearch RagAssistant RagSuite SuiteNotions Reading Notions Samples PyFacts.

(** ** Calls made by [answer] *)

Lemma search_run (self : RAGAssistant) (query : string) (w : world) :
  calls (search self query w).2
  = calls w ++ [VectorStoreSearch (vector_store_id self) query (max_results self)].
Proof.
  unfold search, search_vector_store, vector_store_search, lift, mbind, M_bind, mret, M_ret.
  destruct (search_reply w _ query _) as [sr|e]; [|done].
  by destruct (extract_context sr _ true default_separator).
Qed.

Lemma answer_run (self : RAGAssistant) (query : string) (extra : option string)
    (t : spec_float) (w : world) :
  answer self query extra t w
  = match search self query w with
    | (Ok (ctx, results), w1) =>
        let messages := answer_messages self ctx query extra in
        (reply ← chat_reply w1 (model self) messages (Temperature t);
         Ok {| answer_text := reply;
               context := ctx;
               sources := source_of <$> get_data results;
               query := query;
               response_model := model self;
               search_results := results |},
         record (ChatCompletionsCreate (model self) messages (Temperature t)) 0 0 w1)
    | (Raise e, w1) => (Raise e, w1)
    end.
Proof.
  unfold answer, chat_completions_create, mbind, M_bind at 1, mret, M_ret.
  destruct (search self query w) as [[[ctx results]|e] w1]; [|done].
  unfold mbind, M_bind, result_bind. by destruct (chat_reply w1 _ _ _).
Qed.

(** X16: [RAGAssistant.answer] makes one search, asking for [max_results]
    hits.  When the search or the context extraction fails it ends with
    that error and no chat completion is requested; otherwise it requests
    exactly one, of its model, with its temperature, right after the
    search. *)
Theorem answer_calls (self : RAGAssistant) (query : string) (extra : option string)
    (t : spec_float) (w : world) :
  (forall e w1,
      search self query w = (Raise e, w1) ->
      answer self query extra t w = (Raise e, w1)
      /\ calls w1 = calls w ++ [VectorStoreSearch (vector_store_id self) query
                                                  (max_results self)])
  /\ (forall ctx results w1,
        search self query w = (Ok (ctx, results), w1) ->
        calls (answer self query extra t w).2
        = calls w ++ [VectorStoreSearch (vector_store_id self) query (max_results self);
                      ChatCompletionsCreate (model self)
                        (answer_messages self ctx query extra) (Temperature t)]).
Proof.
  pose proof (search_run self query w) as Hsearch.
  rewrite answer_run. split.
  - intros e w1 Hrun. rewrite Hrun in *. by split.
  - intros ctx results w1 Hrun. rewrite Hrun in *. simpl in *.
    by rewrite Hsearch, <- app_assoc.
Qed.

(** ** With and without history *)

Lemma answer_with_history_run (self : RAGAssistant) (query : string)
    (history : list message) (t : spec_float) (w : world) :
  answer_with_history self query history t w
  = match search self query w with
    | (Ok (ctx, results), w1) =>
        let messages := history_messages self ctx query history in
        (reply ← chat_reply w1 (model self) messages (Temperature t);
         Ok {| answer_text := reply;
               context := ctx;
               sources := map (fun h => default EmptyString (hit_filename h))
                              (get_data results);
               query := query;
               response_model := model self;
               search_results := results |},
         record (ChatCompletionsCreate (model self) messages (Temperature t)) 0 0 w1)
    | (Raise e, w1) => (Raise e, w1)
    end.
Proof.
  unfold answer_with_history, chat_completions_create, mbind, M_bind at 1, mret, M_ret.
  destruct (search self query w) as [[[ctx results]|e] w1]; [|done].
  unfold mbind, M_bind, result_bind. by destruct (chat_reply w1 _ _ _).
Qed.

(** X17: after a search that gives a context, [answer_with_history]
    with an empty history does exactly what [answer] does without
    additional context, provided the context is not empty and every hit has
    a filename.  With an empty context the two differ: [answer_with_history]
    still sends the knowledge-base message, [answer] leaves it out. *)
Theorem answer_with_history_agrees (self : RAGAssistant) (query ctx : string)
    (t : spec_float) (w w1 : world) (results : World.search_results) :
  search self query w = (Ok (ctx, results), w1) ->
  (str_truthy ctx = true ->
   Forall (fun h => hit_filename h <> None) (get_data results) ->
   answer_with_history self query [] t w = answer self query None t w)
  /\ (ctx = EmptyString ->
      calls (answer_with_history self query [] t w).2
      <> calls (answer self query None t w).2).
Proof.
  intros Hsearch. rewrite answer_run, answer_with_history_run, Hsearch. split.
  - intros Hctx Hnames.
    assert (Hmsgs : history_messages self ctx query [] = answer_messages self ctx query None).
    { unfold history_messages, answer_messages. by rewrite Hctx. }
    assert (Hsrcs : map (fun h => default EmptyString (hit_filename h)) (get_data results)
                    = source_of <$> get_data results).
    { induction Hnames as [|h hits Hh _ IH]; simpl; [done|].
      rewrite IH. f_equal. unfold source_of. by destruct (hit_filename h). }
    simpl. by rewrite Hmsgs, Hsrcs.
  - intros ->. simpl. intros Heq. apply app_inv_head in Heq. discriminate Heq.
Qed.

Lemma answer_with_history_agrees_witness :
  let w := world_with [hit_direct] (always (in_progress_batch None)) in
  answer_with_history assistant "shipping time" [] temperature_0_7 w
  = answer assistant "shipping time" None temperature_0_7 w.
Proof.
  intros w.
  assert (Hs : exists ctx results w1,
             search assistant "shipping time" w = (Ok (ctx, results), w1)
             /\ str_truthy ctx = true
             /\ Forall (fun h => hit_filename h <> None) (get_data results)).
  { eexists _, _, _. split; [vm_compute; reflexivity|].
    split; [reflexivity | repeat constructor; discriminate]. }
  destruct Hs as (ctx & results & w1 & Hs & Hctx & Hnames).
  exact (proj1 (answer_with_history_agrees assistant "shipping time" ctx temperature_0_7
                  w w1 results Hs) Hctx Hnames).
Defined.

(** ** Size of the context *)

Lemma extract_context_len (sr : World.search_results) (max_chars : Z) (inc : bool)
    (sep ctx : string) :
  0 <= max_chars ->
  extract_context sr max_chars inc sep = Ok ctx ->
  len ctx <= max_chars + 41.
Proof.
  intros Hmax. unfold extract_context.
  destruct (collect_snippets inc 1 (get_data sr) []) as [snippets|e]; simpl; [|done].
  destruct (Z.gtb_spec (len (join sep snippets)) max_chars); intros [= <-]; [|lia].
  rewrite len_append, len_slice_to_nonneg by done.
  change (len truncation_marker) with 41. lia.
Qed.

(** X18: the context [RAGAssistant.answer] returns, which is the one it
    put in the prompt, is at most [max_context_chars] plus 41 characters
    long (the 41 being the truncation marker), for a [max_context_chars]
    that is not negative; with the defaults of [quick_answer] that is 8041
    characters. *)
Theorem answer_context_bound (self : RAGAssistant) (query : string)
    (extra : option string) (t : spec_float) (w w' : world) (response : RAGResponse) :
  0 <= max_context_chars self ->
  answer self query extra t w = (Ok response, w') ->
  len (context response) <= max_context_chars self + 41
  /\ (max_context_chars self = MAX_CONTEXT_CHARS -> len (context response) <= 8041).
Proof.
  intros Hmax. rewrite answer_run.
  unfold search, search_vector_store, vector_store_search, lift, mbind, M_bind, mret, M_ret.
  destruct (search_reply w _ query _) as [sr|e]; [|done].
  destruct (extract_context sr _ true default_separator) as [ctx|e] eqn:Hctx; [|done].
  unfold result_bind. destruct (chat_reply _ _ _ _); [|done].
  intros [= <- <-]. simpl.
  pose proof (extract_context_len _ _ _ _ _ Hmax Hctx).
  split; [done|]. unfold MAX_CONTEXT_CHARS. lia.
Qed.

Lemma answer_context_bound_witness :
  let w := world_with [hit_direct; hit_direct] (always (in_progress_batch None)) in
  let small := {| vector_store_id := "vs_1"; model := "gpt-4.1";
                  system_prompt := "Answer from the context.";
                  max_results := 5; max_context_chars := 20 |} in
  exists response w',
    answer small "shipping time" None temperature_0_7 w = (Ok response, w')
    /\ len (context response) = 61
    /\ len (context response) <= 20 + 41.
Proof.
  intros w small. eexists _, _. split; [vm_compute; reflexivity|]. split; [reflexivity|].
  refine (proj1 (answer_context_bound small "shipping time" None temperature_0_7 w _ _ _ _)).
  - vm_compute. discriminate.
  - vm_compute. reflexivity.
Defined.

(** ** The test suite *)






End RagMore.

(* ===================================================================== *)
(** * Further properties: the score threshold of the search *)
(* ===================================================================== *)

Module ScoreFilterFacts.
Import VectorSearch ScoreFilter Samples.

Lemma filter_sublist {A : Type} (keep : A -> bool) (l : list A) :
  List.filter keep l `sublist_of` l.
Proof.
  induction l as [|x l IH]; simpl; [constructor|].
  destruct (keep x); by constructor.
Qed.

Lemma filter_elem_of {A : Type} (keep : A -> bool) (l : list A) (x : A) :
  x ∈ List.filter keep l <-> x ∈ l /\ keep x = true.
Proof. rewrite !list_elem_of_In. apply List.filter_In. Qed.

(** Without a threshold this is the [search_vector_store] the assistant
    calls. *)
Lemma search_without_threshold (vs_id query : string) (n : Z) (w : world) :
  ScoreFilter.search_vector_store vs_id query n None w
  = VectorSearch.search_vector_store vs_id query n w.
Proof.
  unfold ScoreFilter.search_vector_store, VectorSearch.search_vector_store,
    vector_store_search, mbind, M_bind, mret, M_ret.
  by destruct (search_reply w vs_id query n).
Qed.

(** A hit without score counts as 0, which is below every positive
    threshold. *)
Lemma zero_below_positive (m : positive) (e : Z) :
  num_ge (PInt 0) (S754_finite false m e) = false.
Proof.
  unfold num_ge. simpl.
  assert (0 < Z.pos m * 2 ^ (e - Z.min 0 e)) as Hpos
    by (apply Z.mul_pos_pos; [lia | apply Z.pow_pos_nonneg; lia]).
  destruct (Z.pos m * 2 ^ (e - Z.min 0 e)); [lia | done | lia].
Qed.

(** X20: [search_vector_store] makes one search call and returns what the
    provider found, filtered only when a threshold other than [None] and
    zero is given and the reply has a ["data"] key: then the hits kept
    are, in the provider's order, exactly those whose score (0 when the hit
    has none) is at least the threshold, so a positive threshold drops
    every hit without score.  A threshold of [None] or 0.0 filters
    nothing. *)
Theorem search_threshold_keeps (vs_id query : string) (n : Z)
    (threshold : option spec_float) (w w' : world) (sr : search_results) :
  ScoreFilter.search_vector_store vs_id query n threshold w = (Ok sr, w') ->
  exists sr0,
    search_reply w vs_id query n = Ok sr0
    /\ w' = record (VectorStoreSearch vs_id query n) 0 0 w
    /\ (threshold = None \/ (exists s, threshold = Some (S754_zero s)) \/ data sr0 = None ->
        sr = sr0)
    /\ (forall t hits,
          threshold = Some t -> float_truthy t = true -> data sr0 = Some hits ->
          exists kept,
            data sr = Some kept
            /\ kept `sublist_of` hits
            /\ (forall h, h ∈ kept <-> h ∈ hits /\ passes t h = true)
            /\ (forall m e h, t = S754_finite false m e -> h ∈ kept -> hit_score h <> None)).
Proof.
  unfold ScoreFilter.search_vector_store, vector_store_search, mbind, M_bind, mret, M_ret.
  destruct (search_reply w vs_id query n) as [sr0|e]; [|done].
  intros Hrun. exists sr0. split; [done|].
  destruct threshold as [t|].
  - destruct (data sr0) as [hits|] eqn:Hdata.
    + destruct (float_truthy t) eqn:Ht; injection Hrun as <- <-; (split; [done|]); split.
      * intros [? | [[s [= ->]] | ?]]; done.
      * intros t' hits' [= <-] _ [= <-]. exists (List.filter (passes t) hits).
        split; [done|]. split; [apply filter_sublist|]. split; [apply filter_elem_of|].
        intros m e h -> Hin Hnone. apply filter_elem_of in Hin as [_ Hpass].
        unfold passes in Hpass. rewrite Hnone in Hpass. simpl in Hpass.
        by rewrite zero_below_positive in Hpass.
      * done.
      * intros t' hits' [= <-] Ht'. congruence.
    + injection Hrun as <- <-. split; [done|]. split; [done|].
      intros t' hits' _ _ Hsome. congruence.
  - injection Hrun as <- <-. split; [done|]. split; [done|]. by intros t' hits' [=].
Qed.

Lemma search_threshold_keeps_witness :
  let hits := [hit_scored "a.md" (Some score_0_9); hit_scored "b.md" None;
               hit_scored "c.md" (Some (PFloat quarter));
               hit_scored "d.md" (Some (PInt 1))] in
  let w := world_with hits (always (in_progress_batch None)) in
  exists sr w',
    ScoreFilter.search_vector_store "vs_1" "shipping" 5 (Some half) w = (Ok sr, w')
    /\ data sr = Some [hit_scored "a.md" (Some score_0_9); hit_scored "d.md" (Some (PInt 1))]
    /\ exists sr0,
         search_reply w "vs_1" "shipping" 5 = Ok sr0
         /\ w' = record (VectorStoreSearch "vs_1" "shipping" 5) 0 0 w
         /\ (Some half = None \/ (exists s, Some half = Some (S754_zero s)) \/ data sr0 = None ->
             sr = sr0)
         /\ (forall t hits0,
               Some half = Some t -> float_truthy t = true -> data sr0 = Some hits0 ->
               exists kept,
                 data sr = Some kept
                 /\ kept `sublist_of` hits0
                 /\ (forall h, h ∈ kept <-> h ∈ hits0 /\ passes t h = true)
                 /\ (forall m e h, t = S754_finite false m e -> h ∈ kept ->
                       hit_score h <> None)).
Proof.
  intros hits w. eexists _, _. split; [vm_compute; reflexivity|]. split; [reflexivity|].
  eapply (search_threshold_keeps "vs_1" "shipping" 5 (Some half) w).
  vm_compute. reflexivity.
Defined.

End ScoreFilterFacts.
